(** * roll: a probability decision tool with pity mechanics

    A shallow embedding of [main.go] (package main of jg-l/roll) and the
    properties of its decision engine, its two stores and its dice roller.

    Conventions of the embedding:
    - Go's [int] is the 64-bit two's complement integer; it is a [Z] in
      the range [min_int .. max_int] and every [+] and [*] of the source
      is written with its wrap-around ([GoInt.add], [GoInt.mul]).
    - [math/rand] is not part of the repository.  The global generator is
      a [RandomSource]: an arbitrary stream of entropy together with a
      cursor; [rand.Intn n] panics for [n <= 0] and otherwise reduces the
      next entropy word into [0, n).  Quantifying over the stream is
      quantifying over every behaviour the generator can have.  The
      source also logs the bound of every call (ghost state), so that
      "which draws happened" can be stated.
    - The TOML files are a finite map from cleaned paths to the record
      the encoder wrote; the bbolt bucket ["states"] is an optional
      finite map from keys, the names as given, to [State] ([None]: the
      bucket was never created).  What the operating system and the
      libraries answer for a name is the [Env] of the world: the path
      [filepath.Join] gives it, whether [os.Create] succeeds on that
      path, whether the file written for a record decodes again, and
      which files [os.ReadDir] lists.  A [Put] refuses the empty key and
      keys above bbolt's limit.  Other failures of input and output
      (a full disk, a lost database) are not modelled.
    - A command that runs to its end returns the values it printed, its
      [Output]; [log.Fatal] ends the process with [Fatal msg], and a
      panic of [rand.Intn] with [Panicked].
    - A session starts from a fresh installation: no file the tool can
      address, an empty database. *)

From Stdlib Require Import ZArith String Ascii List Bool Lia Permutation.
From stdpp Require Import base option gmap strings list fin_maps.

Local Open Scope string_scope.
Local Open Scope Z_scope.

(** ** Go's [int] *)

Module GoInt.

Definition min_int : Z := - 2 ^ 63.
Definition max_int : Z := 2 ^ 63 - 1.

(** Two's complement reduction of a mathematical integer. *)
Definition wrap (z : Z) : Z := (z + 2 ^ 63) mod 2 ^ 64 - 2 ^ 63.

Definition add (a b : Z) : Z := wrap (a + b).
Definition mul (a b : Z) : Z := wrap (a * b).

Definition in_range (z : Z) : Prop := min_int <= z <= max_int.
Definition in_rangeb (z : Z) : bool := (min_int <=? z) && (z <=? max_int).

End GoInt.

(** ** strconv.Atoi

    An optional sign followed by at least one decimal digit; a value
    that does not fit [int] is an error as well. *)

Definition is_digit (c : ascii) : bool :=
  let n := nat_of_ascii c in ((48 <=? n)%nat && (n <=? 57)%nat)%bool.

Fixpoint digits_value (s : string) (acc : Z) : option Z :=
  match s with
  | EmptyString => Some acc
  | String c s' =>
      if is_digit c
      then digits_value s' (10 * acc + (Z.of_nat (nat_of_ascii c) - 48))
      else None
  end.

Definition Atoi (s : string) : option Z :=
  let '(neg, body) :=
    match s with
    | String c s' =>
        if Ascii.eqb c "-" then (true, s')
        else if Ascii.eqb c "+" then (false, s')
        else (false, s)
    | EmptyString => (false, s)
    end in
  match body with
  | EmptyString => None
  | _ =>
      match digits_value body 0 with
      | None => None
      | Some v =>
          let z := if neg then - v else v in
          if GoInt.in_rangeb z then Some z else None
      end
  end.

(** ** math/rand *)

Record RandomSource := mkSource {
  entropy : nat -> Z;     (* the words the generator will produce *)
  cursor : nat;           (* how many of them have been consumed *)
  requests : list Z       (* ghost: the bound of every Intn call so far *)
}.

(** A computation that draws random numbers: [None] is a panic. *)
Definition Rand (A : Type) : Type := RandomSource -> option A * RandomSource.

Definition ret {A} (a : A) : Rand A := fun r => (Some a, r).

Definition bind {A B} (m : Rand A) (k : A -> Rand B) : Rand B :=
  fun r =>
    match m r with
    | (Some a, r') => k a r'
    | (None, r') => (None, r')
    end.

Notation "'draw' x <- m ; k" := (bind m (fun x => k))
  (at level 10, x name, m at level 100, k at level 200).

(** [rand.Intn(n)]: a number in the half-open interval [0, n); panics
    if [n <= 0]. *)
Definition Intn (n : Z) : Rand Z :=
  fun r =>
    let logged := (requests r ++ [n])%list in
    if n <=? 0
    then (None, mkSource (entropy r) (cursor r) logged)
    else (Some (entropy r (cursor r) mod n),
          mkSource (entropy r) (S (cursor r)) logged).

(** ** Data model *)

Record Config := mkConfig {
  Name : string;
  Chance : Z;
  Grace : Z;
  Pity : Z;
  Variance : Z
}.

Record State := mkState {
  PityCounter : Z;
  LastRoll : Z
}.

(** A cleaned absolute path, component by component. *)
Abbreviation Path := (list string).

(** What the machine answers to the calls that depend on a name. *)
Record Env := mkEnv {
  (* filepath.Join(configDir, name+".toml") *)
  configPath : string -> Path;
  (* os.Create succeeds on the path *)
  createOk : Path -> bool;
  (* toml.DecodeFile accepts the file the encoder wrote for the record,
     and then gives the record back *)
  tomlDecodes : Config -> bool;
  (* os.ReadDir(configDir): for a file of the directory with the
     extension .toml, its name without the extension *)
  listedName : Path -> option string
}.

Record World := mkWorld {
  env : Env;
  configs : gmap Path Config;              (* the files written by create *)
  states : option (gmap string State);     (* bucket "states" of roll.db *)
  rand : RandomSource
}.

(** bbolt's [Put] returns ErrKeyRequired for the empty key and
    ErrKeyTooLarge above MaxKeySize. *)
Definition MaxKeySize : Z := 32768.

Definition putOk (key : string) : bool :=
  (0 <? Z.of_nat (String.length key)) &&
  (Z.of_nat (String.length key) <=? MaxKeySize).

(** What a command printed. *)

Record RollReport := mkRollReport {
  base_chance : Z;
  pity_shown : Z;
  grace_bonus : Z;
  effective_chance : Z;
  raw_roll : Z;
  success : bool
}.

Record ShowReport := mkShowReport {
  show_config : Config;
  show_pity_counter : Z;
  current_chance : Z;
  show_last_roll : Z
}.

Record DiceReport := mkDiceReport {
  dice_roll : Z;
  shifted_result : option Z;
  dice_range : Z * Z
}.

Inductive Output :=
| OutCreate (c : Config)
| OutRoll (r : RollReport)
| OutList (entries : list (string * Config * Z))
| OutShow (r : ShowReport)
| OutDelete (name : string)
| OutDice (r : DiceReport).

Inductive Exit :=
| Printed (o : Output)
| Fatal (msg : string)
| Panicked.

(** ** The commands *)

Definition set_rand (w : World) (r : RandomSource) : World :=
  mkWorld (env w) (configs w) (states w) r.

(** [loadConfig]: decode the file at the path of the name; [None] is
    its error, for a missing file and for a file that does not decode. *)
Definition loadConfig (name : string) (w : World) : option Config :=
  match configs w !! configPath (env w) name with
  | Some written => if tomlDecodes (env w) written then Some written else None
  | None => None
  end.

Definition createCmd (name a_chance a_grace a_pity a_variance : string)
    (w : World) : Exit * World :=
  match Atoi a_chance with
  | None => (Fatal "Invalid chance value:", w)
  | Some chance =>
  match Atoi a_grace with
  | None => (Fatal "Invalid grace value:", w)
  | Some grace =>
  match Atoi a_pity with
  | None => (Fatal "Invalid pity value:", w)
  | Some pity =>
  match Atoi a_variance with
  | None => (Fatal "Invalid variance value:", w)
  | Some variance =>
      if (chance <? 0) || (100 <? chance) then
        (Fatal "Chance must be between 0 and 100", w)
      else if grace <? 0 then (Fatal "Grace must be non-negative", w)
      else if pity <? 0 then (Fatal "Pity must be non-negative", w)
      else if variance <? 0 then (Fatal "Variance must be non-negative", w)
      else
        let config := mkConfig name chance grace pity variance in
        let path := configPath (env w) name in
        if negb (createOk (env w) path) then
          (Fatal "Failed to create config file:", w)
        else
          (* os.Create truncates an existing file; the encoder writes *)
          let files := <[path := config]> (configs w) in
          (* CreateBucketIfNotExists, then an unconditional Put; an
             error of Put rolls the transaction back, bucket included *)
          let b := match states w with Some b => b | None => ∅ end in
          let state := mkState 0 0 in
          if negb (putOk name) then
            (Fatal "Failed to initialize state:",
             mkWorld (env w) files (states w) (rand w))
          else
            (Printed (OutCreate config),
             mkWorld (env w) files (Some (<[name := state]> b)) (rand w))
  end end end end.

(** The variance block of [rollCmd], lines 188 to 194: the statement
    [effectiveChance += config.Grace] under its two draws. *)
Definition applyVariance (config : Config) (effectiveChance : Z) : Rand Z :=
  if 0 <? Variance config then
    draw d1 <- Intn (Variance config);
    let varianceRoll := GoInt.add d1 1 in
    draw d2 <- Intn varianceRoll;
    ret (if d2 =? 0
         then GoInt.add effectiveChance (Grace config)
         else effectiveChance)
  else ret effectiveChance.

(** The closure of [rollCmd] between reading and writing the state:
    lines 185 to 222. *)
Definition rollBody (config : Config) (state : State)
    : Rand (State * RollReport) :=
  let effectiveChance :=
    GoInt.add (Chance config) (GoInt.mul (PityCounter state) (Grace config)) in
  draw effectiveChance <- applyVariance config effectiveChance;
  let effectiveChance :=
    if 100 <? effectiveChance then 100 else effectiveChance in
  draw d <- Intn 100;
  let roll := GoInt.add d 1 in
  let success := roll <=? effectiveChance in
  let report :=
    mkRollReport (Chance config) (PityCounter state)
      (GoInt.mul (PityCounter state) (Grace config))
      effectiveChance roll success in
  let pityCounter :=
    if success then 0
    else if PityCounter state <? Pity config
         then GoInt.add (PityCounter state) 1
         else PityCounter state in
  ret (mkState pityCounter roll, report).

Definition rollCmd (name : string) (w : World) : Exit * World :=
  match loadConfig name w with
  | None => (Fatal "Failed to load config:", w)
  | Some config =>
      match states w with
      | None => (Fatal "Failed to update state: states bucket not found", w)
      | Some b =>
          match b !! name with
          | None => (Fatal "Failed to update state: state not found", w)
          | Some state =>
              match rollBody config state (rand w) with
              | (Some (state', report), r) =>
                  (Printed (OutRoll report),
                   mkWorld (env w) (configs w) (Some (<[name := state']> b)) r)
              | (None, r) => (Panicked, set_rand w r)
              end
          end
      end
  end.

Definition listCmd (w : World) : Exit * World :=
  let pity_of (name : string) : Z :=
    match states w with
    | Some b => match b !! name with
                | Some state => PityCounter state
                | None => 0
                end
    | None => 0
    end in
  let entry (file : Path * Config) : option (string * Config * Z) :=
    match listedName (env w) (fst file) with
    | Some name =>
        match loadConfig name w with
        | Some config => Some (name, config, pity_of name)
        | None => None            (* continue *)
        end
    | None => None                (* not in the directory, or no .toml *)
    end in
  (Printed (OutList (omap entry (map_to_list (configs w)))), w).

Definition showCmd (name : string) (w : World) : Exit * World :=
  match loadConfig name w with
  | None => (Fatal "Failed to load config:", w)
  | Some config =>
      match states w with
      | None => (Fatal "Failed to load state: states bucket not found", w)
      | Some b =>
          match b !! name with
          | None => (Fatal "Failed to load state: state not found", w)
          | Some state =>
              (Printed (OutShow
                 (mkShowReport config (PityCounter state)
                    (GoInt.add (Chance config)
                       (GoInt.mul (PityCounter state) (Grace config)))
                    (LastRoll state))), w)
          end
      end
  end.

Definition deleteCmd (name : string) (w : World) : Exit * World :=
  let path := configPath (env w) name in
  match configs w !! path with
  | None => (Fatal "Failed to delete config file:", w)
  | Some _ =>
      (Printed (OutDelete name),
       mkWorld (env w) (delete path (configs w))
               (match states w with
                | Some b => Some (delete name b)
                | None => None
                end)
               (rand w))
  end.

(** The [switch] of [diceCmd]; [None] is its [default] branch. *)
Definition diceSides (diceType : string) : option Z :=
  if String.eqb diceType "d10" || String.eqb diceType "D10" then Some 10
  else if String.eqb diceType "d5" || String.eqb diceType "D5" then Some 5
  else if String.eqb diceType "d4" || String.eqb diceType "D4" then Some 4
  else if String.eqb diceType "d6" || String.eqb diceType "D6" then Some 6
  else if String.eqb diceType "d8" || String.eqb diceType "D8" then Some 8
  else if String.eqb diceType "d12" || String.eqb diceType "D12" then Some 12
  else if String.eqb diceType "d20" || String.eqb diceType "D20" then Some 20
  else if String.eqb diceType "d100" || String.eqb diceType "D100" then Some 100
  else None.

Definition invalidDiceType : string :=
  "Invalid dice type. Supported: d4, d5, d6, d8, d10, d12, d20, d100".

Definition diceCmd (diceType : string) (shift : Z) (w : World)
    : Exit * World :=
  match diceSides diceType with
  | None => (Fatal invalidDiceType, w)
  | Some sides =>
      match Intn sides (rand w) with
      | (None, r) => (Panicked, set_rand w r)
      | (Some d, r) =>
          let roll := GoInt.add d 1 in
          let report :=
            if negb (shift =? 0)
            then mkDiceReport roll (Some (GoInt.add roll shift))
                   (GoInt.add 1 shift, GoInt.add sides shift)
            else mkDiceReport roll None (1, sides) in
          (Printed (OutDice report), set_rand w r)
      end
  end.

(** One invocation of the tool. *)
Inductive Command :=
| Create (name chance grace pity variance : string)
| Roll (name : string)
| List
| Show (name : string)
| Delete (name : string)
| Dice (diceType : string) (shift : Z).

Definition exec (c : Command) (w : World) : Exit * World :=
  match c with
  | Create name chance grace pity variance =>
      createCmd name chance grace pity variance w
  | Roll name => rollCmd name w
  | List => listCmd w
  | Show name => showCmd name w
  | Delete name => deleteCmd name w
  | Dice diceType shift => diceCmd diceType shift w
  end.

(** A session: one process after the other on the same stores. *)
Fixpoint run (cs : list Command) (w : World) : World :=
  match cs with
  | [] => w
  | c :: cs' => run cs' (snd (exec c w))
  end.

(** A fresh installation on a machine: no file, an empty database. *)
Definition fresh (machine : Env) (e : nat -> Z) : World :=
  mkWorld machine ∅ None (mkSource e 0 []).

(** A generator that answers from a script, then with zeros. *)
Definition script (l : list Z) : nat -> Z := fun i => nth i l 0.

(** ** An example machine

    A Linux home in which the directories are /, /home, /home/user and
    /home/user/.roll, the last two writable, used for the scenarios. *)

(** The elements of a slash-separated path. *)
Fixpoint components (s : string) : list string :=
  match s with
  | EmptyString => [EmptyString]
  | String c s' =>
      if Ascii.eqb c "/" then EmptyString :: components s'
      else match components s' with
           | h :: t => String c h :: t
           | [] => [String c EmptyString]
           end
  end.

(** [filepath.Clean] on a rooted path, one element at a time; [seen]
    holds the elements kept so far, the last one first. *)
Definition cleanStep (seen : list string) (c : string) : list string :=
  if String.eqb c "" || String.eqb c "." then seen
  else if String.eqb c ".." then tail seen
  else c :: seen.

Definition joinClean (dir : Path) (elem : string) : Path :=
  rev (fold_left cleanStep (components elem) (rev dir)).

Definition homeDir : Path := ["home"; "user"].
Definition configDir : Path := ["home"; "user"; ".roll"].

(** A file name the kernel takes: not empty, at most 255 bytes, no NUL. *)
Definition fileNameOk (file : string) : bool :=
  ((0 <? String.length file)%nat && (String.length file <=? 255)%nat &&
   forallb (fun c => negb (Ascii.eqb c Ascii.zero)) (list_ascii_of_string file))%bool.

Definition inRange (lo hi b : N) : bool := ((lo <=? b)%N && (b <=? hi)%N)%bool.

(** Well-formed UTF-8, as [utf8.Valid] has it. *)
Fixpoint utf8Valid (bs : list N) : bool :=
  match bs with
  | [] => true
  | b0 :: rest =>
      if inRange 0 127 b0 then utf8Valid rest
      else
        match rest with
        | [] => false
        | b1 :: rest1 =>
            if inRange 194 223 b0 then inRange 128 191 b1 && utf8Valid rest1
            else
              match rest1 with
              | [] => false
              | b2 :: rest2 =>
                  if inRange 224 239 b0 then
                    (if (b0 =? 224)%N then inRange 160 191 b1
                     else if (b0 =? 237)%N then inRange 128 159 b1
                     else inRange 128 191 b1)
                    && inRange 128 191 b2 && utf8Valid rest2
                  else
                    match rest2 with
                    | [] => false
                    | b3 :: rest3 =>
                        inRange 240 244 b0 &&
                        (if (b0 =? 240)%N then inRange 144 191 b1
                         else if (b0 =? 244)%N then inRange 128 143 b1
                         else inRange 128 191 b1)
                        && inRange 128 191 b2 && inRange 128 191 b3
                        && utf8Valid rest3
                    end
              end
        end
  end.

(** The name [listCmd] cuts out of a file name: the part before a
    final .toml. *)
Definition tomlName (file : string) : option string :=
  let n := String.length file in
  if ((5 <=? n)%nat && String.eqb (substring (n - 5) 5 file) ".toml")%bool
  then Some (substring 0 (n - 5) file) else None.

Definition homeMachine : Env :=
  mkEnv
    (fun name => joinClean configDir (name ++ ".toml"))
    (fun path =>
       match rev path with
       | file :: parent =>
           (bool_decide (rev parent = configDir) ||
            bool_decide (rev parent = homeDir)) && fileNameOk file
       | [] => false
       end)
    (fun written =>
       utf8Valid (map N_of_ascii (list_ascii_of_string (Name written))))
    (fun path =>
       match rev path with
       | file :: parent =>
           if bool_decide (rev parent = configDir) then tomlName file else None
       | [] => None
       end).

(** ** The draws of one roll, named

    The words of the generator that a roll starting in [r] consumes,
    read as the specification names them. *)

Definition word (r : RandomSource) (i : nat) : Z :=
  entropy r (cursor r + i)%nat.

(** [v], drawn from [1, variance]. *)
Definition v_drawn (config : Config) (r : RandomSource) : Z :=
  word r 0 mod Variance config + 1.

(** [t], drawn from [1, v]. *)
Definition t_drawn (config : Config) (r : RandomSource) : Z :=
  word r 1 mod v_drawn config r + 1.

Definition bonus_triggers (config : Config) (r : RandomSource) : bool :=
  (0 <? Variance config) && (t_drawn config r =? 1).

(** The word that becomes the raw roll: the third one after a variance
    draw, the first one otherwise. *)
Definition roll_word (config : Config) (r : RandomSource) : Z :=
  word r (if 0 <? Variance config then 2 else 0).

(** The bounds handed to [rand.Intn] during one roll. *)
Definition roll_bounds (config : Config) (r : RandomSource) : list Z :=
  if 0 <? Variance config
  then [Variance config; v_drawn config r; 100]
  else [100].

(** The bounds of the two variance draws alone. *)
Definition variance_bounds (config : Config) (r : RandomSource) : list Z :=
  if 0 <? Variance config then [Variance config; v_drawn config r] else [].

(** A record whose fields are Go [int]s. *)
Definition config_fits (c : Config) : Prop :=
  GoInt.in_range (Chance c) /\ GoInt.in_range (Grace c) /\
  GoInt.in_range (Pity c) /\ GoInt.in_range (Variance c).

Definition state_fits (s : State) : Prop :=
  GoInt.in_range (PityCounter s) /\ GoInt.in_range (LastRoll s).

Definition advance (r : RandomSource) (bounds : list Z) : RandomSource :=
  mkSource (entropy r) (cursor r + length bounds)%nat
           (requests r ++ bounds)%list.

(** What [createCmd] lets through: the result of [Atoi] after the four
    range checks. *)
Definition created (c : Config) : Prop :=
  0 <= Chance c <= 100 /\ 0 <= Grace c <= GoInt.max_int /\
  0 <= Pity c <= GoInt.max_int /\ 0 <= Variance c <= GoInt.max_int.

(** The four numeric arguments of create, converted by [Atoi] to the
    fields of [config] and within the ranges that create checks. *)
Definition checked (a_chance a_grace a_pity a_variance : string)
    (config : Config) : Prop :=
  Atoi a_chance = Some (Chance config) /\
  Atoi a_grace = Some (Grace config) /\
  Atoi a_pity = Some (Pity config) /\
  Atoi a_variance = Some (Variance config) /\
  0 <= Chance config <= 100 /\ 0 <= Grace config /\
  0 <= Pity config /\ 0 <= Variance config.

(** ASCII lower case, for the dice types. *)
Definition lower_ascii (c : ascii) : ascii :=
  let n := nat_of_ascii c in
  if ((65 <=? n)%nat && (n <=? 90)%nat)%bool
  then ascii_of_nat (n + 32) else c.

Fixpoint lower (s : string) : string :=
  match s with
  | EmptyString => EmptyString
  | String c s' => String (lower_ascii c) (lower s')
  end.

Definition supported_dice : list (string * Z) :=
  [("d4", 4); ("d5", 5); ("d6", 6); ("d8", 8);
   ("d10", 10); ("d12", 12); ("d20", 20); ("d100", 100)].

(** [Read(name)] of the state store. *)
Definition readState (name : string) (w : World) : option State :=
  match states w with
  | Some b => b !! name
  | None => None
  end.

(** Ghost history of a session: the raw roll most recently drawn for
    [name] since its state record was written by create; [None] when no
    roll was drawn for it since. *)
Fixpoint last_drawn (name : string) (cs : list Command) (w : World)
    (seen : option Z) : option Z :=
  match cs with
  | [] => seen
  | c :: cs' =>
      let seen' :=
        match c, fst (exec c w) with
        | Roll n, Printed (OutRoll report) =>
            if String.eqb n name then Some (raw_roll report) else seen
        | Create n _ _ _ _, Printed _ =>
            if String.eqb n name then None else seen
        | Delete n, Printed _ =>
            if String.eqb n name then None else seen
        | _, _ => seen
        end in
      last_drawn name cs' (snd (exec c w)) seen'
  end.

(** Invariant of a session: the stored last_roll is the raw roll seen
    last, or 0 when none was seen. *)
Definition last_roll_tracks (name : string) (w : World) (seen : option Z)
    : Prop :=
  forall state, readState name w = Some state ->
    match seen with
    | Some raw => LastRoll state = raw /\ 1 <= raw <= 100
    | None => LastRoll state = 0
    end.

(** Invariant of a session: every file holds a record that passed the
    checks of create, and every State record holds a counter and a last
    roll that are not negative. *)
Definition stores_ok (w : World) : Prop :=
  (forall (path : Path) config,
     configs w !! path = Some config -> created config) /\
  (forall name state, readState name w = Some state ->
     0 <= PityCounter state <= GoInt.max_int /\
     0 <= LastRoll state <= 100).




(** The pity [listCmd] prints beside a name: the stored counter, or the
    zero value of [State] when the database has no record. *)
Definition listed_pity (name : string) (w : World) : Z :=
  match readState name w with
  | Some state => PityCounter state
  | None => 0
  end.

(** The commands that only read the stores. *)
Definition read_only (c : Command) : bool :=
  match c with
  | List | Show _ | Dice _ _ => true
  | _ => false
  end.

(** The name under which a command writes or removes a file. *)
Definition file_written_by (c : Command) : option string :=
  match c with
  | Create n _ _ _ _ | Delete n => Some n
  | _ => None
  end.

(** No create or delete of the session reaches the file of [name]
    under another spelling of its path. *)
Definition sole_spelling (machine : Env) (name : string)
    (cs : list Command) : Prop :=
  Forall (fun c => forall n,
            file_written_by c = Some n ->
            configPath machine n = configPath machine name -> n = name) cs.

(** Invariant of a session for one name: its file and its State record
    come and go together, the file holds a record of that name, and the
    pity of the file bounds the stored counter. *)
Definition name_paired (name : string) (w : World) : Prop :=
  (is_Some (configs w !! configPath (env w) name) <->
   is_Some (readState name w)) /\
  (forall config,
     configs w !! configPath (env w) name = Some config ->
     Name config = name /\
     exists state,
       readState name w = Some state /\
       0 <= PityCounter state <= Pity config).

(** * Properties *)

(** ** Machine integers *)

Module GoIntFacts.
Import GoInt.

Lemma wrap_id z : in_range z -> wrap z = z.
Proof.
  unfold in_range, wrap, min_int, max_int. intros H.
  rewrite Z.mod_small by lia. lia.
Qed.

Lemma wrap_in_range z : in_range (wrap z).
Proof.
  unfold in_range, wrap, min_int, max_int.
  pose proof (Z.mod_pos_bound (z + 2 ^ 63) (2 ^ 64) ltac:(lia)). lia.
Qed.

Lemma add_exact a b : in_range (a + b) -> add a b = a + b.
Proof. apply wrap_id. Qed.

Lemma mul_exact a b : in_range (a * b) -> mul a b = a * b.
Proof. apply wrap_id. Qed.

Lemma in_rangeb_spec z : in_rangeb z = true <-> in_range z.
Proof. unfold in_rangeb, in_range. rewrite andb_true_iff. lia. Qed.

(** The successor of a reduced word never wraps when the bound fits. *)
Lemma succ_mod_exact x n :
  0 < n -> n <= max_int -> add (x mod n) 1 = x mod n + 1.
Proof.
  intros Hn Hmax. apply add_exact.
  pose proof (Z.mod_pos_bound x n Hn).
  unfold in_range, min_int, max_int in *. lia.
Qed.

End GoIntFacts.

(** ** The generator *)

Section Generator.
Import GoInt GoIntFacts.

Lemma advance_nil r : advance r [] = r.
Proof.
  destruct r as [e c q]. unfold advance; simpl.
  rewrite Nat.add_0_r, app_nil_r. reflexivity.
Qed.

Lemma advance_app r l1 l2 :
  advance (advance r l1) l2 = advance r (l1 ++ l2).
Proof.
  unfold advance; simpl. rewrite length_app, Nat.add_assoc, app_assoc.
  reflexivity.
Qed.

Lemma word_advance r l i : word (advance r l) i = word r (length l + i).
Proof. unfold word, advance; simpl. now rewrite Nat.add_assoc. Qed.

Lemma Intn_pos n r :
  0 < n -> Intn n r = (Some (word r 0 mod n), advance r [n]).
Proof.
  intros Hn. unfold Intn, word, advance; simpl.
  destruct (Z.leb_spec n 0); [lia |].
  rewrite Nat.add_0_r, Nat.add_1_r. reflexivity.
Qed.

Lemma Intn_nonpos n r :
  n <= 0 -> fst (Intn n r) = None.
Proof.
  intros Hn. unfold Intn. destruct (Z.leb_spec n 0); [reflexivity | lia].
Qed.

Lemma word_mod_range r i n : 0 < n -> 0 <= word r i mod n < n.
Proof. intros Hn. apply Z.mod_pos_bound, Hn. Qed.

End Generator.

(** ** The decision engine in closed form *)

Section Engine.
Import GoInt GoIntFacts.

Variable config : Config.
Hypothesis variance_fits : Variance config <= max_int.

Lemma v_drawn_range r :
  0 < Variance config -> 1 <= v_drawn config r <= Variance config.
Proof.
  intros Hv. unfold v_drawn.
  pose proof (word_mod_range r 0 _ Hv). lia.
Qed.

Lemma t_drawn_range r :
  0 < Variance config -> 1 <= t_drawn config r <= v_drawn config r.
Proof.
  intros Hv. unfold t_drawn. pose proof (v_drawn_range r Hv).
  pose proof (word_mod_range r 1 (v_drawn config r) ltac:(lia)). lia.
Qed.

Lemma applyVariance_unfold eff r :
  applyVariance config eff r =
  (Some (if bonus_triggers config r then add eff (Grace config) else eff),
   advance r (variance_bounds config r)).
Proof.
  unfold applyVariance, bonus_triggers, variance_bounds.
  destruct (Z.ltb_spec 0 (Variance config)) as [Hv | Hv]; simpl.
  - unfold bind. rewrite (Intn_pos _ r Hv).
    rewrite (succ_mod_exact _ _ Hv variance_fits).
    fold (v_drawn config r).
    pose proof (v_drawn_range r Hv) as Hrange.
    rewrite Intn_pos by lia. rewrite advance_app, word_advance. simpl.
    unfold ret, t_drawn. f_equal. f_equal.
    destruct (Z.eqb_spec (word r 1 mod v_drawn config r) 0) as [E | E];
      destruct (Z.eqb_spec (word r 1 mod v_drawn config r + 1) 1);
      try reflexivity; lia.
  - unfold ret. now rewrite advance_nil.
Qed.

Lemma roll_bounds_split r :
  roll_bounds config r = (variance_bounds config r ++ [100])%list.
Proof.
  unfold roll_bounds, variance_bounds.
  destruct (0 <? Variance config); reflexivity.
Qed.

Lemma rollBody_unfold state r :
  let sum := add (Chance config) (mul (PityCounter state) (Grace config)) in
  let eff :=
    Z.min 100 (if bonus_triggers config r
               then add sum (Grace config) else sum) in
  let roll := roll_word config r mod 100 + 1 in
  let pc :=
    if roll <=? eff then 0
    else if PityCounter state <? Pity config
         then add (PityCounter state) 1 else PityCounter state in
  rollBody config state r =
  (Some (mkState pc roll,
         mkRollReport (Chance config) (PityCounter state)
           (mul (PityCounter state) (Grace config)) eff roll
           (roll <=? eff)),
   advance r (roll_bounds config r)).
Proof.
  intros sum eff roll pc. unfold rollBody, bind.
  rewrite applyVariance_unfold. fold sum.
  rewrite Intn_pos by lia. rewrite advance_app, word_advance.
  rewrite <- roll_bounds_split.
  assert (Hw : word r (length (variance_bounds config r) + 0) = roll_word config r).
  { unfold roll_word, variance_bounds.
    destruct (0 <? Variance config); reflexivity. }
  rewrite Hw. rewrite succ_mod_exact by (unfold max_int; lia).
  fold roll.
  assert (Hc : (if 100 <? (if bonus_triggers config r
                           then add sum (Grace config) else sum)
                then 100
                else (if bonus_triggers config r
                      then add sum (Grace config) else sum)) = eff).
  { unfold eff. destruct (Z.ltb_spec 100
      (if bonus_triggers config r then add sum (Grace config) else sum)); lia. }
  rewrite Hc. reflexivity.
Qed.

End Engine.

(** ** One roll of the decision engine *)

Section Decision.
Import GoInt GoIntFacts.

(** A roll never panics on a configuration that is a Go value, and its
    random source ends where the closed form says. *)
Lemma rollBody_returns config state r :
  config_fits config ->
  exists state' report,
    rollBody config state r =
    (Some (state', report), advance r (roll_bounds config r)).
Proof.
  intros (_ & _ & _ & _ & Hv).
  pose proof (rollBody_unfold config Hv state r) as H. simpl in H.
  eauto.
Qed.

(** Whatever the configuration, a roll that returns has stored its raw
    roll, a number of [1, 100]. *)
Lemma rollBody_last_roll config state r state' report r' :
  rollBody config state r = (Some (state', report), r') ->
  LastRoll state' = raw_roll report /\ 1 <= raw_roll report <= 100.
Proof.
  unfold rollBody, bind.
  destruct (applyVariance config _ r) as [[eff |] r1]; [| discriminate].
  unfold ret. rewrite Intn_pos by lia.
  rewrite succ_mod_exact by (unfold max_int; lia).
  intros H. injection H as <- <- _. simpl.
  pose proof (word_mod_range r1 0 100 ltac:(lia)). lia.
Qed.

(** The effective chance a roll prints is at most 100. *)
Lemma rollBody_effective_le_100 config state r state' report r' :
  rollBody config state r = (Some (state', report), r') ->
  effective_chance report <= 100.
Proof.
  unfold rollBody, bind.
  destruct (applyVariance config _ r) as [[eff |] r1]; [| discriminate].
  unfold ret. rewrite Intn_pos by lia.
  intros H. injection H as _ <- _. simpl.
  destruct (Z.ltb_spec 100 eff); lia.
Qed.

(** The wrapped sum is the mathematical one as long as the largest
    intermediate value fits. *)
Lemma pity_sum_exact chance grace pc (bonus : bool) :
  0 <= chance -> 0 <= grace -> 0 <= pc ->
  chance + (pc + 1) * grace <= max_int ->
  let sum := add chance (mul pc grace) in
  (if bonus then add sum grace else sum) =
  chance + pc * grace + (if bonus then grace else 0).
Proof.
  intros Hc Hg Hp Hfit sum.
  assert (Hpg : 0 <= pc * grace) by nia.
  assert (Hm : mul pc grace = pc * grace).
  { apply mul_exact. unfold in_range, min_int, max_int in *. nia. }
  assert (Hs : sum = chance + pc * grace).
  { unfold sum. rewrite Hm. apply add_exact.
    unfold in_range, min_int, max_int in *. nia. }
  destruct bonus; [| lia].
  rewrite Hs. rewrite add_exact; [lia |].
  unfold in_range, min_int, max_int in *. nia.
Qed.

(** The computation of one roll in Go's arithmetic.  Every roll
    computes the effective chance as chance + pity_counter * grace, adds
    grace once more when the variance bonus triggers, and only then
    clamps the result to at most 100.  The raw roll is the answer of the
    call [rand.Intn(100)] plus 1: a number of [1, 100], each face the
    image of exactly one answer.  The roll succeeds if and only if the
    raw roll is at most the clamped effective chance.  The sums wrap
    around; they are the mathematical ones whenever
    chance + (pity_counter + 1) * grace fits an [int]. *)
Theorem roll_effective_chance (config : Config) (state : State)
    (r : RandomSource) :
  config_fits config ->
  let sum := add (Chance config) (mul (PityCounter state) (Grace config)) in
  let unclamped :=
    if bonus_triggers config r then add sum (Grace config) else sum in
  exists state' report r',
    rollBody config state r = (Some (state', report), r') /\
    effective_chance report = Z.min 100 unclamped /\
    Intn 100 (advance r (variance_bounds config r)) =
      (Some (raw_roll report - 1), r') /\
    raw_roll report = roll_word config r mod 100 + 1 /\
    1 <= raw_roll report <= 100 /\
    (forall face, 1 <= face <= 100 ->
       (raw_roll report = face <-> roll_word config r mod 100 = face - 1)) /\
    (success report = true <->
       raw_roll report <= effective_chance report) /\
    (0 <= Chance config -> 0 <= Grace config -> 0 <= PityCounter state ->
     Chance config + (PityCounter state + 1) * Grace config <= max_int ->
     unclamped =
     Chance config + PityCounter state * Grace config +
     (if bonus_triggers config r then Grace config else 0)).
Proof.
  intros Hfits sum unclamped.
  destruct Hfits as (_ & _ & _ & _ & Hv).
  pose proof (rollBody_unfold config Hv state r) as H. simpl in H.
  eexists _, _, _. split; [exact H |]. simpl.
  pose proof (word_mod_range r (if 0 <? Variance config then 2%nat else 0%nat)
                100 ltac:(lia)) as Hr.
  fold (roll_word config r) in Hr.
  split; [reflexivity |]. split.
  { rewrite Intn_pos by lia. rewrite advance_app, word_advance.
    rewrite <- roll_bounds_split. f_equal. f_equal.
    unfold roll_word, variance_bounds.
    destruct (0 <? Variance config); simpl; lia. }
  split; [reflexivity |]. split; [lia |].
  split; [intros face Hface; lia |]. split; [apply Z.leb_le |].
  intros. apply pity_sum_exact; assumption.
Qed.

(** C2. With variance > 0 the variance mechanic is a draw of v from
    [1, variance] followed by a draw of t from [1, v]: the two calls of
    [rand.Intn] have the bounds variance and v and answer v - 1 and
    t - 1.  Grace is added a second time exactly when t = 1, which is
    certain when v = 1.  With variance = 0 the generator is not touched
    and nothing is added. *)
Theorem variance_two_stage_draw (config : Config) (effective : Z)
    (r : RandomSource) :
  config_fits config ->
  (0 < Variance config ->
     let v := v_drawn config r in
     let t := t_drawn config r in
     1 <= v <= Variance config /\
     1 <= t <= v /\
     Intn (Variance config) r = (Some (v - 1), advance r [Variance config]) /\
     Intn v (advance r [Variance config]) =
       (Some (t - 1), advance r [Variance config; v]) /\
     applyVariance config effective r =
       (Some (if t =? 1 then add effective (Grace config) else effective),
        advance r [Variance config; v]) /\
     (v = 1 -> t = 1)) /\
  (Variance config = 0 -> applyVariance config effective r = (Some effective, r)).
Proof.
  intros (_ & _ & _ & _ & Hfit). split.
  - intros Hv v t.
    pose proof (v_drawn_range config r Hv) as Hvr.
    pose proof (t_drawn_range config r Hv) as Htr.
    fold v in Hvr, Htr. fold t in Htr.
    split; [exact Hvr |]. split; [exact Htr |].
    split; [| split; [| split]].
    + rewrite Intn_pos by lia. f_equal. f_equal. unfold v, v_drawn. lia.
    + rewrite Intn_pos by lia. rewrite advance_app, word_advance. simpl.
      f_equal. f_equal. unfold t, t_drawn. fold v. lia.
    + rewrite applyVariance_unfold by exact Hfit.
      unfold bonus_triggers, variance_bounds.
      destruct (Z.ltb_spec 0 (Variance config)); [reflexivity | lia].
    + lia.
  - intros Hz. rewrite applyVariance_unfold by exact Hfit.
    unfold bonus_triggers, variance_bounds. rewrite Hz. simpl.
    now rewrite advance_nil.
Qed.

(** C1, where the code departs from it.  The configuration of
    [create x 100 9223372036854775807 1 1] passes the checks of create.
    On its first roll the variance bonus triggers, the sum 100 + grace
    wraps around, the effective chance printed is negative and the raw
    roll 1 fails; the claim's min(100, chance + pity_counter * grace +
    grace) is 100, at which the raw roll 1 succeeds. *)
Theorem roll_fails_when_bonus_sum_wraps :
  let config := mkConfig "x" 100 max_int 1 1 in
  let state := mkState 0 0 in
  let r := mkSource (script [0; 0; 0]) 0 [] in
  Atoi "9223372036854775807" = Some max_int /\
  created config /\
  bonus_triggers config r = true /\
  Z.min 100 (Chance config + PityCounter state * Grace config + Grace config)
    = 100 /\
  exists state' report r',
    rollBody config state r = (Some (state', report), r') /\
    effective_chance report = min_int + 99 /\
    raw_roll report = 1 /\
    success report = false /\
    PityCounter state' = 1.
Proof.
  cbv zeta. split; [vm_compute; reflexivity |].
  split; [unfold created, max_int; simpl; lia |].
  split; [vm_compute; reflexivity |].
  split; [vm_compute; reflexivity |].
  eexists _, _, _. split; [vm_compute; reflexivity |].
  repeat split; vm_compute; reflexivity.
Qed.

(** C3. For a roll that starts with pity_counter <= pity, the stored
    counter follows the draw: when the raw roll is at most the effective
    chance the roll prints SUCCESS and stores pity_counter 0 whatever it
    was; when the raw roll is above it the roll prints FAILED and stores
    min(pity_counter + 1, pity).  So the stored counter does not exceed
    pity (a pity that is non-negative, as every configuration has it). *)
Theorem pity_counter_after_roll (config : Config) (state : State)
    (r : RandomSource) :
  config_fits config -> state_fits state ->
  PityCounter state <= Pity config ->
  let sum := add (Chance config) (mul (PityCounter state) (Grace config)) in
  let effective :=
    Z.min 100 (if bonus_triggers config r
               then add sum (Grace config) else sum) in
  let raw := roll_word config r mod 100 + 1 in
  exists state' report,
    rollBody config state r =
      (Some (state', report), advance r (roll_bounds config r)) /\
    raw_roll report = raw /\
    effective_chance report = effective /\
    LastRoll state' = raw /\
    (raw <= effective ->
       success report = true /\ PityCounter state' = 0) /\
    (effective < raw ->
       success report = false /\
       PityCounter state' = Z.min (PityCounter state + 1) (Pity config)) /\
    (0 <= Pity config -> PityCounter state' <= Pity config).
Proof.
  intros (_ & _ & Hp & Hv) (Hpc & _) Hle sum effective raw.
  pose proof (rollBody_unfold config (proj2 Hv) state r) as H. simpl in H.
  fold sum in H. fold effective in H. fold raw in H.
  eexists _, _. split; [exact H |]. simpl.
  assert (Hinc : PityCounter state < Pity config ->
                 add (PityCounter state) 1 = PityCounter state + 1).
  { intros Hlt. apply add_exact.
    unfold in_range, min_int, max_int in *. lia. }
  split; [reflexivity |]. split; [reflexivity |]. split; [reflexivity |].
  destruct (Z.leb_spec raw effective) as [Hok | Hko].
  - split; [auto |]. split; [lia | lia].
  - split; [lia |].
    destruct (Z.ltb_spec (PityCounter state) (Pity config)).
    + rewrite Hinc by assumption. split; [intros _; split; [reflexivity | lia] | lia].
    + split; [intros _; split; [reflexivity | lia] | lia].
Qed.

(** C10. On a configuration that passed the checks of create, no call
    of [rand.Intn] during a roll has a bound below 1 and the roll does
    not panic: the calls are the variance draw with bound variance,
    made only when variance > 0, the nested draw with bound v >= 1, and
    the main roll with bound 100. *)
Theorem roll_draws_have_positive_range (config : Config) (state : State)
    (r : RandomSource) :
  created config ->
  exists out r',
    rollBody config state r = (Some out, r') /\
    requests r' = (requests r ++ roll_bounds config r)%list /\
    Forall (fun bound => 0 < bound) (roll_bounds config r) /\
    (0 < Variance config ->
       roll_bounds config r = [Variance config; v_drawn config r; 100] /\
       1 <= v_drawn config r) /\
    (Variance config = 0 -> roll_bounds config r = [100]).
Proof.
  intros (_ & _ & _ & Hv).
  pose proof (rollBody_unfold config (proj2 Hv) state r) as H. simpl in H.
  eexists _, _. split; [exact H |]. simpl.
  split; [reflexivity |]. unfold roll_bounds.
  destruct (Z.ltb_spec 0 (Variance config)) as [Hpos | Hnp].
  - pose proof (v_drawn_range config r Hpos).
    split; [| split]; [| split; [reflexivity | lia] | lia].
    repeat constructor; lia.
  - split; [| split]; [| lia | reflexivity].
    repeat constructor; lia.
Qed.

End Decision.

(** ** The two stores *)

Section Stores.
Import GoInt GoIntFacts.

Lemma Atoi_in_range s z : Atoi s = Some z -> in_range z.
Proof.
  unfold Atoi.
  destruct (match s with
            | EmptyString => (false, s)
            | String c s' =>
                if Ascii.eqb c "-" then (true, s')
                else if Ascii.eqb c "+" then (false, s') else (false, s)
            end) as [neg body].
  destruct body; [discriminate |].
  destruct (digits_value _ 0) as [v |]; [| discriminate].
  destruct (in_rangeb _) eqn:E; [| discriminate].
  intros [= <-]. now apply in_rangeb_spec.
Qed.

Lemma checked_created a1 a2 a3 a4 config :
  checked a1 a2 a3 a4 config -> created config.
Proof.
  intros (E1 & E2 & E3 & E4 & Hc & Hg & Hp & Hv).
  apply Atoi_in_range in E1, E2, E3, E4.
  unfold created, in_range, min_int, max_int in *. lia.
Qed.

Lemma created_fits config : created config -> config_fits config.
Proof.
  unfold created, config_fits, in_range, min_int, max_int. lia.
Qed.

(** create on arguments that pass the checks: the file first, then the
    State record. *)
Lemma createCmd_checked name a1 a2 a3 a4 config w :
  Name config = name -> checked a1 a2 a3 a4 config ->
  createCmd name a1 a2 a3 a4 w =
  if negb (createOk (env w) (configPath (env w) name)) then
    (Fatal "Failed to create config file:", w)
  else if negb (putOk name) then
    (Fatal "Failed to initialize state:",
     mkWorld (env w) (<[configPath (env w) name := config]> (configs w))
             (states w) (rand w))
  else
    (Printed (OutCreate config),
     mkWorld (env w) (<[configPath (env w) name := config]> (configs w))
             (Some (<[name := mkState 0 0]>
                      (match states w with Some b => b | None => ∅ end)))
             (rand w)).
Proof.
  intros <- (E1 & E2 & E3 & E4 & Hc & Hg & Hp & Hv). unfold createCmd.
  rewrite E1, E2, E3, E4.
  destruct (Z.ltb_spec (Chance config) 0); [lia |].
  destruct (Z.ltb_spec 100 (Chance config)); [lia |]. simpl.
  destruct (Z.ltb_spec (Grace config) 0); [lia |].
  destruct (Z.ltb_spec (Pity config) 0); [lia |].
  destruct (Z.ltb_spec (Variance config) 0); [lia |].
  destruct config; reflexivity.
Qed.

(** The three ways create ends: at an error before it wrote anything;
    at the error of [Put], the file written; or at its end. *)
Lemma createCmd_cases name a1 a2 a3 a4 w :
  (exists msg, createCmd name a1 a2 a3 a4 w = (Fatal msg, w)) \/
  (exists config,
     Name config = name /\ checked a1 a2 a3 a4 config /\
     createOk (env w) (configPath (env w) name) = true /\
     putOk name = false /\
     createCmd name a1 a2 a3 a4 w =
     (Fatal "Failed to initialize state:",
      mkWorld (env w) (<[configPath (env w) name := config]> (configs w))
              (states w) (rand w))) \/
  (exists config,
     Name config = name /\ checked a1 a2 a3 a4 config /\
     createOk (env w) (configPath (env w) name) = true /\
     putOk name = true /\
     createCmd name a1 a2 a3 a4 w =
     (Printed (OutCreate config),
      mkWorld (env w) (<[configPath (env w) name := config]> (configs w))
              (Some (<[name := mkState 0 0]>
                       (match states w with Some b => b | None => ∅ end)))
              (rand w))).
Proof.
  destruct (Atoi a1) as [chance |] eqn:E1;
    [| left; unfold createCmd; rewrite E1; eauto].
  destruct (Atoi a2) as [grace |] eqn:E2;
    [| left; unfold createCmd; rewrite E1, E2; eauto].
  destruct (Atoi a3) as [pity |] eqn:E3;
    [| left; unfold createCmd; rewrite E1, E2, E3; eauto].
  destruct (Atoi a4) as [variance |] eqn:E4;
    [| left; unfold createCmd; rewrite E1, E2, E3, E4; eauto].
  destruct (Z.ltb_spec chance 0) as [Hc0 | Hc0];
    [left; unfold createCmd; rewrite E1, E2, E3, E4;
     apply Z.ltb_lt in Hc0; rewrite Hc0; eauto |].
  destruct (Z.ltb_spec 100 chance) as [Hc1 | Hc1];
    [left; unfold createCmd; rewrite E1, E2, E3, E4;
     apply Z.ltb_lt in Hc1; rewrite Hc1, orb_true_r; eauto |].
  destruct (Z.ltb_spec grace 0) as [Hg | Hg];
    [left; unfold createCmd; rewrite E1, E2, E3, E4;
     apply Z.ltb_ge in Hc0, Hc1; apply Z.ltb_lt in Hg;
     rewrite Hc0, Hc1, Hg; eauto |].
  destruct (Z.ltb_spec pity 0) as [Hp | Hp];
    [left; unfold createCmd; rewrite E1, E2, E3, E4;
     apply Z.ltb_ge in Hc0, Hc1, Hg; apply Z.ltb_lt in Hp;
     rewrite Hc0, Hc1, Hg, Hp; eauto |].
  destruct (Z.ltb_spec variance 0) as [Hv | Hv];
    [left; unfold createCmd; rewrite E1, E2, E3, E4;
     apply Z.ltb_ge in Hc0, Hc1, Hg, Hp; apply Z.ltb_lt in Hv;
     rewrite Hc0, Hc1, Hg, Hp, Hv; eauto |].
  assert (Hchk : checked a1 a2 a3 a4 (mkConfig name chance grace pity variance)).
  { unfold checked; simpl. repeat split; assumption || lia. }
  rewrite (createCmd_checked name a1 a2 a3 a4
             (mkConfig name chance grace pity variance) w eq_refl Hchk).
  destruct (createOk (env w) (configPath (env w) name)) eqn:Ec; simpl;
    [| left; eauto].
  destruct (putOk name) eqn:Ek; simpl.
  - right; right. eexists. repeat split; eauto; apply Hchk.
  - right; left. eexists. repeat split; eauto; apply Hchk.
Qed.

Lemma loadConfig_file name w config :
  loadConfig name w = Some config ->
  configs w !! configPath (env w) name = Some config /\
  tomlDecodes (env w) config = true.
Proof.
  unfold loadConfig.
  destruct (configs w !! configPath (env w) name) as [written |];
    [| discriminate].
  destruct (tomlDecodes (env w) written) eqn:E; [| discriminate].
  intros [= <-]. auto.
Qed.

Lemma loadConfig_of_file name w config :
  configs w !! configPath (env w) name = Some config ->
  tomlDecodes (env w) config = true ->
  loadConfig name w = Some config.
Proof. intros Hf Hd. unfold loadConfig. now rewrite Hf, Hd. Qed.

(** What a roll that returned has printed and stored, whatever the
    configuration. *)
Lemma rollBody_inversion config state r state' report r' :
  rollBody config state r = (Some (state', report), r') ->
  base_chance report = Chance config /\
  pity_shown report = PityCounter state /\
  grace_bonus report = mul (PityCounter state) (Grace config) /\
  success report = (raw_roll report <=? effective_chance report) /\
  LastRoll state' = raw_roll report /\
  PityCounter state' =
    (if success report then 0
     else if PityCounter state <? Pity config
          then add (PityCounter state) 1 else PityCounter state).
Proof.
  unfold rollBody, bind.
  destruct (applyVariance config _ r) as [[eff |] r1]; [| discriminate].
  unfold ret. rewrite Intn_pos by lia.
  intros H. injection H as <- <- _. simpl. repeat split; reflexivity.
Qed.

(** roll either stops with both stores untouched, or panics having
    touched the generator only, or prints the report of [rollBody] and
    stores its state. *)
Lemma rollCmd_cases name w :
  (exists msg, rollCmd name w = (Fatal msg, w)) \/
  (exists r, rollCmd name w = (Panicked, set_rand w r)) \/
  (exists config b state state' report r,
     loadConfig name w = Some config /\ states w = Some b /\
     b !! name = Some state /\
     rollBody config state (rand w) = (Some (state', report), r) /\
     rollCmd name w =
     (Printed (OutRoll report),
      mkWorld (env w) (configs w) (Some (<[name := state']> b)) r)).
Proof.
  unfold rollCmd.
  destruct (loadConfig name w) as [config |] eqn:Ec; [| left; eauto].
  destruct (states w) as [b |] eqn:Eb; [| left; eauto].
  destruct (b !! name) as [state |] eqn:Es; [| left; eauto].
  destruct (rollBody config state (rand w)) as [[[state' report] |] r] eqn:Er.
  - right; right. exists config, b, state, state', report, r. auto.
  - right; left. eauto.
Qed.

Lemma deleteCmd_cases name w :
  deleteCmd name w = (Fatal "Failed to delete config file:", w) \/
  deleteCmd name w =
  (Printed (OutDelete name),
   mkWorld (env w) (delete (configPath (env w) name) (configs w))
           (match states w with
            | Some b => Some (delete name b)
            | None => None
            end) (rand w)).
Proof.
  unfold deleteCmd. destruct (configs w !! configPath (env w) name); auto.
Qed.

(** list, show and dice leave both stores as they are. *)
Lemma listCmd_stores w :
  configs (snd (listCmd w)) = configs w /\
  states (snd (listCmd w)) = states w.
Proof. split; reflexivity. Qed.

Lemma showCmd_world name w : snd (showCmd name w) = w.
Proof.
  unfold showCmd. destruct (loadConfig name w); [| reflexivity].
  destruct (states w) as [b |]; [| reflexivity].
  destruct (b !! name); reflexivity.
Qed.

Lemma showCmd_stores name w :
  configs (snd (showCmd name w)) = configs w /\
  states (snd (showCmd name w)) = states w.
Proof. now rewrite showCmd_world. Qed.

Lemma diceCmd_stores diceType shift w :
  configs (snd (diceCmd diceType shift w)) = configs w /\
  states (snd (diceCmd diceType shift w)) = states w.
Proof.
  unfold diceCmd.
  destruct (diceSides diceType); [| split; reflexivity].
  destruct (Intn _ _) as [[d |] r]; split; reflexivity.
Qed.

(** No command changes the machine. *)
Lemma exec_env c w : env (snd (exec c w)) = env w.
Proof.
  destruct c as [n a1 a2 a3 a4 | n | | n | n | dt sh]; simpl.
  - destruct (createCmd_cases n a1 a2 a3 a4 w)
      as [[msg ->] | [(cf & _ & _ & _ & _ & ->) | (cf & _ & _ & _ & _ & ->)]];
      reflexivity.
  - destruct (rollCmd_cases n w)
      as [[msg ->] | [[r ->] | (cf & b & st & st' & rep & r & _ & _ & _ & _ & ->)]];
      reflexivity.
  - reflexivity.
  - now rewrite showCmd_world.
  - destruct (deleteCmd_cases n w) as [-> | ->]; reflexivity.
  - unfold diceCmd. destruct (diceSides dt); [| reflexivity].
    destruct (Intn _ _) as [[d |] r]; reflexivity.
Qed.

Lemma run_env cs : forall w, env (run cs w) = env w.
Proof.
  induction cs as [| c cs IH]; intros w; simpl; [reflexivity |].
  rewrite IH. apply exec_env.
Qed.

End Stores.

(** ** Frames of the commands *)

Section Frames.
Import GoInt GoIntFacts.

(** Every command but a create or a delete that addresses the path
    keeps the file at the path. *)
Lemma exec_config_frame c w (path : Path) :
  configs (snd (exec c w)) !! path <> configs w !! path ->
  exists n,
    configPath (env w) n = path /\
    (c = Delete n \/ exists a1 a2 a3 a4, c = Create n a1 a2 a3 a4).
Proof.
  intros Hchg. destruct c as [n a1 a2 a3 a4 | n | | n | n | dt sh]; simpl in Hchg.
  - exists n. split; [| right; eauto].
    destruct (decide (configPath (env w) n = path)) as [E | Hne]; [exact E |].
    exfalso. apply Hchg.
    destruct (createCmd_cases n a1 a2 a3 a4 w)
      as [[msg ->] | [(cf & _ & _ & _ & _ & ->) | (cf & _ & _ & _ & _ & ->)]];
      simpl; [reflexivity | |]; now apply lookup_insert_ne.
  - exfalso. apply Hchg.
    destruct (rollCmd_cases n w)
      as [[msg ->] | [[r ->] | (cf & b & st & st' & rep & r & _ & _ & _ & _ & ->)]];
      reflexivity.
  - exfalso. now apply Hchg.
  - exfalso. apply Hchg. now rewrite showCmd_world.
  - exists n. split; [| left; reflexivity].
    destruct (decide (configPath (env w) n = path)) as [E | Hne]; [exact E |].
    exfalso. apply Hchg.
    destruct (deleteCmd_cases n w) as [-> | ->]; simpl;
      [reflexivity | now apply lookup_delete_ne].
  - exfalso. apply Hchg. now rewrite (proj1 (diceCmd_stores dt sh w)).
Qed.

(** C5 fails on the code: a second create under the same name replaces
    the stored Configuration. *)
Lemma create_again_replaces_config :
  let w1 := run [Create "a" "10" "5" "3" "0"] (fresh homeMachine (script [])) in
  let w2 := snd (exec (Create "a" "20" "0" "0" "0") w1) in
  loadConfig "a" w1 = Some (mkConfig "a" 10 5 3 0) /\
  loadConfig "a" w2 = Some (mkConfig "a" 20 0 0 0) /\
  loadConfig "a" w2 <> loadConfig "a" w1.
Proof.
  assert (H1 : loadConfig "a"
                 (run [Create "a" "10" "5" "3" "0"] (fresh homeMachine (script [])))
               = Some (mkConfig "a" 10 5 3 0)) by (vm_compute; reflexivity).
  assert (H2 : loadConfig "a"
                 (snd (exec (Create "a" "20" "0" "0" "0")
                    (run [Create "a" "10" "5" "3" "0"]
                         (fresh homeMachine (script [])))))
               = Some (mkConfig "a" 20 0 0 0)) by (vm_compute; reflexivity).
  cbv zeta. split; [exact H1 |]. split; [exact H2 |].
  rewrite H1, H2. discriminate.
Qed.

(** C5, amended. The record stored for a name, the file at the path of
    the name, is changed by no command other than a create or a delete
    that addresses that file, under the name or under another spelling
    of the same path; roll, list, show and dice keep it, and the record
    that [loadConfig] reads with it.  A create of the name whose
    arguments pass the checks and whose file [os.Create] can open
    stores the new record in the file, replacing one that exists. *)
Theorem config_changed_only_by_create_or_delete (c : Command) (w : World)
    (name : string) :
  (configs (snd (exec c w)) !! configPath (env w) name <>
   configs w !! configPath (env w) name ->
   exists n,
     configPath (env w) n = configPath (env w) name /\
     (c = Delete n \/ exists a1 a2 a3 a4, c = Create n a1 a2 a3 a4)) /\
  (loadConfig name (snd (exec c w)) <> loadConfig name w ->
   exists n,
     configPath (env w) n = configPath (env w) name /\
     (c = Delete n \/ exists a1 a2 a3 a4, c = Create n a1 a2 a3 a4)) /\
  (forall a1 a2 a3 a4 config,
     c = Create name a1 a2 a3 a4 ->
     Name config = name -> checked a1 a2 a3 a4 config ->
     createOk (env w) (configPath (env w) name) = true ->
     configs (snd (exec c w)) !! configPath (env w) name = Some config).
Proof.
  split; [apply exec_config_frame |]. split.
  - intros Hload. apply exec_config_frame. intros Hsame. apply Hload.
    unfold loadConfig. now rewrite exec_env, Hsame.
  - intros a1 a2 a3 a4 config -> Hn Hchk Hok. simpl.
    rewrite (createCmd_checked _ _ _ _ _ _ w Hn Hchk), Hok. simpl.
    destruct (putOk name); simpl; apply lookup_insert_eq.
Qed.

End Frames.

(** ** The state store across a session *)

Section Sessions.
Import GoInt GoIntFacts.

Lemma readState_insert name name' state b v c r :
  readState name' (mkWorld v c (Some (<[name := state]> b)) r) =
  if decide (name = name') then Some state else b !! name'.
Proof. unfold readState; simpl. apply lookup_insert. Qed.

Lemma readState_or_empty name w :
  (match states w with Some b => b | None => ∅ end) !! name =
  readState name w.
Proof.
  unfold readState. destruct (states w); [reflexivity | apply lookup_empty].
Qed.

(** C6 fails on the code: create overwrites a State record that
    exists.  After one failed roll the record is {1, 100}; a second
    create of the same name leaves {0, 0}. *)
Lemma create_again_resets_state :
  let w1 := run [Create "a" "10" "5" "3" "0"; Roll "a"]
                (fresh homeMachine (script [99])) in
  readState "a" w1 = Some (mkState 1 100) /\
  readState "a" (snd (exec (Create "a" "10" "5" "3" "0") w1)) =
  Some (mkState 0 0).
Proof. cbv zeta. split; vm_compute; reflexivity. Qed.

(** C6, amended. A create that runs to its end writes
    {pity_counter: 0, last_roll: 0} under the name whether or not a
    State record exists for it, and keeps the records of the other
    names; a create that stops at an error leaves the database as it
    was.  create runs to its end whenever its arguments pass the checks,
    [os.Create] can open the file of the name, and the name is a key
    that [Put] accepts: not empty and of at most 32768 bytes. *)
Theorem create_writes_zero_state (name a1 a2 a3 a4 : string) (w : World) :
  (forall o, fst (createCmd name a1 a2 a3 a4 w) = Printed o ->
     readState name (snd (createCmd name a1 a2 a3 a4 w)) = Some (mkState 0 0) /\
     forall other, other <> name ->
       readState other (snd (createCmd name a1 a2 a3 a4 w)) =
       readState other w) /\
  (forall msg, fst (createCmd name a1 a2 a3 a4 w) = Fatal msg ->
     states (snd (createCmd name a1 a2 a3 a4 w)) = states w) /\
  (forall config,
     Name config = name -> checked a1 a2 a3 a4 config ->
     createOk (env w) (configPath (env w) name) = true ->
     putOk name = true ->
     fst (createCmd name a1 a2 a3 a4 w) = Printed (OutCreate config)).
Proof.
  split; [| split].
  - destruct (createCmd_cases name a1 a2 a3 a4 w)
      as [[msg ->] | [(cf & _ & _ & _ & _ & ->) | (cf & _ & _ & _ & _ & ->)]];
      simpl; try discriminate.
    intros o _. split.
    + rewrite readState_insert. now rewrite decide_True.
    + intros other Hne. rewrite readState_insert.
      rewrite decide_False by congruence. apply readState_or_empty.
  - destruct (createCmd_cases name a1 a2 a3 a4 w)
      as [[msg ->] | [(cf & _ & _ & _ & _ & ->) | (cf & _ & _ & _ & _ & ->)]];
      simpl; try discriminate; reflexivity.
  - intros config Hn Hchk Hok Hkey.
    rewrite (createCmd_checked _ _ _ _ _ _ w Hn Hchk), Hok, Hkey.
    reflexivity.
Qed.

(** C7 fails on the code: the State record that create writes has
    last_roll 0, which is no raw roll and lies outside [1, 100]. *)
Lemma created_state_has_last_roll_zero :
  let w1 := run [Create "a" "10" "5" "3" "0"] (fresh homeMachine (script [])) in
  exists state,
    readState "a" w1 = Some state /\ LastRoll state = 0 /\
    ~ (1 <= LastRoll state <= 100).
Proof.
  cbv zeta. exists (mkState 0 0).
  split; [vm_compute; reflexivity |]. simpl. split; [reflexivity | lia].
Qed.

Lemma last_roll_tracks_step name c w seen :
  last_roll_tracks name w seen ->
  last_roll_tracks name (snd (exec c w))
    (match c, fst (exec c w) with
     | Roll n, Printed (OutRoll report) =>
         if String.eqb n name then Some (raw_roll report) else seen
     | Create n _ _ _ _, Printed _ =>
         if String.eqb n name then None else seen
     | Delete n, Printed _ =>
         if String.eqb n name then None else seen
     | _, _ => seen
     end).
Proof.
  intros Inv. destruct c as [n a1 a2 a3 a4 | n | | n | n | dt sh]; simpl.
  - destruct (createCmd_cases n a1 a2 a3 a4 w)
      as [[msg ->] | [(cf & _ & _ & _ & _ & ->) | (cf & _ & _ & _ & _ & ->)]];
      simpl; [exact Inv | exact Inv |].
    intros state. rewrite readState_insert.
    destruct (String.eqb_spec n name) as [-> | Hne].
    + rewrite decide_True by reflexivity. now intros [= <-].
    + rewrite decide_False by assumption. rewrite readState_or_empty.
      apply Inv.
  - destruct (rollCmd_cases n w)
      as [[msg ->] | [[r ->] |
          (cf & b & st & st' & rep & r & _ & Eb & _ & Er & ->)]]; simpl;
      [exact Inv | exact Inv |].
    intros state. rewrite readState_insert.
    destruct (rollBody_last_roll _ _ _ _ _ _ Er) as [Hl Hr].
    destruct (String.eqb_spec n name) as [-> | Hne].
    + rewrite decide_True by reflexivity. intros [= <-]. auto.
    + rewrite decide_False by assumption. intros Hs. apply Inv.
      unfold readState. now rewrite Eb.
  - exact Inv.
  - now rewrite showCmd_world.
  - destruct (deleteCmd_cases n w) as [-> | ->]; simpl; [exact Inv |].
    intros state. unfold readState; simpl.
    destruct (states w) as [b |] eqn:Eb; [| discriminate].
    destruct (String.eqb_spec n name) as [-> | Hne].
    + now rewrite lookup_delete_eq.
    + rewrite lookup_delete_ne by assumption. intros Hs. apply Inv.
      unfold readState. now rewrite Eb.
  - intros state Hs. apply Inv. revert Hs. unfold readState.
    now rewrite (proj2 (diceCmd_stores dt sh w)).
Qed.

Lemma last_roll_tracks_run name cs : forall w seen,
  last_roll_tracks name w seen ->
  last_roll_tracks name (run cs w) (last_drawn name cs w seen).
Proof.
  induction cs as [| c cs IH]; intros w seen Inv; simpl; [exact Inv |].
  apply IH. now apply last_roll_tracks_step.
Qed.

(** C7, amended. In every State record reachable from a fresh
    installation, last_roll is 0 as long as no roll was drawn for the
    name since create wrote the record; from the first roll on it lies
    in [1, 100] and is the raw roll drawn most recently for the name,
    whether that roll succeeded or failed. *)
Theorem last_roll_is_latest_raw_roll (machine : Env) (e : nat -> Z)
    (cs : list Command) (name : string) (state : State) :
  readState name (run cs (fresh machine e)) = Some state ->
  match last_drawn name cs (fresh machine e) None with
  | Some raw => LastRoll state = raw /\ 1 <= raw <= 100
  | None => LastRoll state = 0
  end.
Proof.
  apply (last_roll_tracks_run name cs (fresh machine e) None).
  intros st. unfold readState; simpl. discriminate.
Qed.

(** A roll keeps the pity counter between 0 and pity. *)
Lemma rollBody_pity_bounds config state r state' report r' :
  created config ->
  0 <= PityCounter state <= Pity config ->
  rollBody config state r = (Some (state', report), r') ->
  0 <= PityCounter state' <= Pity config.
Proof.
  intros (_ & _ & Hp & Hv) Hpc.
  pose proof (rollBody_unfold config (proj2 Hv) state r) as H. simpl in H.
  rewrite H. intros [= <- _ _]. simpl.
  destruct (_ <=? _); [lia |].
  destruct (Z.ltb_spec (PityCounter state) (Pity config)); [| lia].
  rewrite add_exact by (unfold in_range, min_int, max_int in *; lia). lia.
Qed.

(** A roll keeps the pity counter a non-negative [int]. *)
Lemma rollBody_counter_range config state r state' report r' :
  created config ->
  0 <= PityCounter state <= max_int ->
  rollBody config state r = (Some (state', report), r') ->
  0 <= PityCounter state' <= max_int.
Proof.
  intros (_ & _ & Hp & _) Hpc Hrun.
  destruct (rollBody_inversion _ _ _ _ _ _ Hrun) as (_ & _ & _ & _ & _ & ->).
  destruct (success report); [unfold max_int; lia |].
  destruct (Z.ltb_spec (PityCounter state) (Pity config)); [| lia].
  rewrite add_exact by (unfold in_range, min_int, max_int in *; lia). lia.
Qed.

Lemma stores_ok_step c w : stores_ok w -> stores_ok (snd (exec c w)).
Proof.
  intros [Hc Hs]. destruct c as [n a1 a2 a3 a4 | n | | n | n | dt sh]; simpl.
  - destruct (createCmd_cases n a1 a2 a3 a4 w)
      as [[msg ->] | [(cf & _ & Hchk & _ & _ & ->) |
                      (cf & _ & Hchk & _ & _ & ->)]]; simpl;
      [split; assumption | |].
    + split; simpl; [| exact Hs].
      intros path config. rewrite lookup_insert.
      destruct (decide (configPath (env w) n = path));
        [intros [= <-]; eapply checked_created, Hchk | apply Hc].
    + split; simpl.
      * intros path config. rewrite lookup_insert.
        destruct (decide (configPath (env w) n = path));
          [intros [= <-]; eapply checked_created, Hchk | apply Hc].
      * intros name state. rewrite readState_insert.
        destruct (decide (n = name)).
        -- intros [= <-]. simpl. unfold max_int. lia.
        -- rewrite readState_or_empty. apply (Hs name).
  - destruct (rollCmd_cases n w)
      as [[msg ->] | [[r ->] |
          (cf & b & st & st' & rep & r & Ec & Eb & Est & Er & ->)]]; simpl;
      [split; assumption | split; assumption |].
    split; simpl; [exact Hc |].
    intros name state. rewrite readState_insert.
    destruct (decide (n = name)) as [<- | Hne].
    + intros [= <-].
      destruct (Hs n st) as (Hpc & _).
      { unfold readState. now rewrite Eb. }
      apply loadConfig_file in Ec as [Ec _]. split.
      * eapply rollBody_counter_range; eauto.
      * destruct (rollBody_last_roll _ _ _ _ _ _ Er). lia.
    + intros Hst. apply (Hs name). unfold readState. now rewrite Eb.
  - split; assumption.
  - rewrite showCmd_world. split; assumption.
  - destruct (deleteCmd_cases n w) as [-> | ->]; simpl; [split; assumption |].
    split; simpl.
    + intros path config. rewrite lookup_delete.
      destruct (decide (configPath (env w) n = path)); [discriminate | apply Hc].
    + intros name state. unfold readState; simpl.
      destruct (states w) as [b |] eqn:Eb; [| discriminate].
      rewrite lookup_delete.
      destruct (decide (n = name)); [discriminate |].
      intros Hst. apply (Hs name). unfold readState. now rewrite Eb.
  - destruct (diceCmd_stores dt sh w) as [E1 E2].
    split; [now rewrite E1 |]. unfold readState in *. now rewrite E2.
Qed.

(** Every world of a session that starts from a fresh installation. *)
Lemma reachable_stores_ok machine e cs : stores_ok (run cs (fresh machine e)).
Proof.
  assert (H : forall w, stores_ok w -> stores_ok (run cs w)).
  { induction cs as [| c cs IH]; intros w Hw; simpl; [exact Hw |].
    apply IH, stores_ok_step, Hw. }
  apply H. split.
  - intros path config. simpl. now rewrite lookup_empty.
  - intros name state. unfold readState; simpl. discriminate.
Qed.

End Sessions.

(** ** What show prints *)

Section Display.
Import GoInt GoIntFacts.

(** show prints the pity-only sum as it is. *)
Lemma showCmd_current_chance name w report :
  fst (showCmd name w) = Printed (OutShow report) ->
  exists config state,
    loadConfig name w = Some config /\ readState name w = Some state /\
    current_chance report =
    add (Chance config) (mul (PityCounter state) (Grace config)).
Proof.
  unfold showCmd, readState.
  destruct (loadConfig name w) as [config |]; [| discriminate].
  destruct (states w) as [b |]; [| discriminate].
  destruct (b !! name) as [state |]; [| discriminate].
  simpl. intros [= <-]. eauto.
Qed.

(** C4, where the code departs from it. After [create t 50 30 3 0] and
    two failed rolls the pity counter is 2; show then prints the current
    chance 50 + 2 * 30 = 110, above 100, while a roll from the same
    state prints an effective chance of 100. *)
Theorem show_prints_chance_above_100 :
  let w := run [Create "t" "50" "30" "3" "0"; Roll "t"; Roll "t"]
               (fresh homeMachine (script [99; 99])) in
  readState "t" w = Some (mkState 2 100) /\
  (exists report,
     fst (exec (Show "t") w) = Printed (OutShow report) /\
     current_chance report = 110 /\ ~ current_chance report <= 100) /\
  (exists report,
     fst (exec (Roll "t") w) = Printed (OutRoll report) /\
     effective_chance report = 100).
Proof.
  cbv zeta. split; [vm_compute; reflexivity |]. split.
  - eexists. split; [vm_compute; reflexivity |]. simpl. split; [reflexivity | lia].
  - eexists. split; [vm_compute; reflexivity |]. reflexivity.
Qed.

End Display.

(** ** The dice roller *)

Section Dice.
Import GoInt GoIntFacts.

Lemma lower_ascii_inv c x :
  lower_ascii c = x ->
  c = x \/
  ((65 <= nat_of_ascii c <= 90)%nat /\
   nat_of_ascii x = (nat_of_ascii c + 32)%nat).
Proof.
  unfold lower_ascii. intros <-.
  destruct (Nat.leb_spec 65 (nat_of_ascii c)); simpl; [| now left].
  destruct (Nat.leb_spec (nat_of_ascii c) 90); [| now left].
  right. split; [lia |]. apply nat_ascii_embedding. lia.
Qed.

Lemma lower_ascii_d c : lower_ascii c = "d"%char -> c = "d"%char \/ c = "D"%char.
Proof.
  intros H. destruct (lower_ascii_inv _ _ H) as [-> | [_ Hn]]; [now left |].
  right. rewrite <- (ascii_nat_embedding c).
  change (nat_of_ascii "d") with 100%nat in Hn.
  replace (nat_of_ascii c) with 68%nat by lia. reflexivity.
Qed.

Lemma lower_ascii_digit c x :
  is_digit x = true -> lower_ascii c = x -> c = x.
Proof.
  unfold is_digit. intros Hd H.
  destruct (lower_ascii_inv _ _ H) as [-> | [Hc Hn]]; [reflexivity |].
  apply andb_true_iff in Hd as [_ Hd]. apply Nat.leb_le in Hd. lia.
Qed.

(** Recover the letters of a string from those of its lower case. *)
Ltac dice_letters :=
  repeat match goal with
    | E : lower_ascii _ = "d"%char |- _ =>
        apply lower_ascii_d in E; destruct E; subst
    | E : lower_ascii _ = _ |- _ =>
        apply lower_ascii_digit in E; [subst | reflexivity]
    end.

Lemma diceSides_of_table diceType sides :
  In (lower diceType, sides) supported_dice -> diceSides diceType = Some sides.
Proof.
  unfold supported_dice. simpl.
  intros [H | [H | [H | [H | [H | [H | [H | [H | []]]]]]]]];
    injection H as H <-; symmetry in H;
    destruct diceType as [| c1 [| c2 [| c3 [| c4 [| c5 rest]]]]];
    simpl in H; try discriminate H;
    injection H as H; intros; dice_letters; reflexivity.
Qed.

Lemma diceSides_in_table diceType sides :
  diceSides diceType = Some sides -> In (lower diceType, sides) supported_dice.
Proof.
  unfold diceSides.
  repeat match goal with
    | |- context [String.eqb diceType ?l] =>
        destruct (String.eqb_spec diceType l) as [-> | ?]
    end; simpl; intros [= <-]; unfold supported_dice; simpl; tauto.
Qed.

Lemma diceSides_bounds diceType sides :
  diceSides diceType = Some sides -> 4 <= sides <= 100.
Proof.
  intros H. apply diceSides_in_table in H. unfold supported_dice in H.
  simpl in H.
  repeat match goal with
    | H : _ \/ _ |- _ => destruct H as [H | H]
    | H : (_, _) = (_, _) |- _ => injection H as _ <-
    | H : False |- _ => destruct H
    end; lia.
Qed.

Lemma diceCmd_unfold diceType sides shift w :
  diceSides diceType = Some sides ->
  let roll := word (rand w) 0 mod sides + 1 in
  diceCmd diceType shift w =
  (Printed (OutDice
     (mkDiceReport roll
        (if shift =? 0 then None else Some (add roll shift))
        (add 1 shift, add sides shift))),
   set_rand w (advance (rand w) [sides])).
Proof.
  intros Hs roll. pose proof (diceSides_bounds _ _ Hs) as Hb.
  unfold diceCmd. rewrite Hs. rewrite Intn_pos by lia.
  rewrite succ_mod_exact by (unfold max_int; lia). fold roll.
  destruct (Z.eqb_spec shift 0) as [-> | Hne]; simpl; [| reflexivity].
  unfold add. rewrite !Z.add_0_r.
  rewrite !wrap_id by (unfold in_range, min_int, max_int; lia).
  reflexivity.
Qed.

(** C8. The dice command accepts a dice type exactly when its lower
    case is one of d4, d5, d6, d8, d10, d12, d20, d100, and then rolls
    a die of that many sides: the accepted sides are exactly
    {4, 5, 6, 8, 10, 12, 20, 100}.  Every other dice type ends in the
    invalid-dice-type error with the generator untouched: no roll is
    made. *)
Theorem dice_types_accepted (diceType : string) :
  (forall sides,
     diceSides diceType = Some sides <->
     In (lower diceType, sides) supported_dice) /\
  (forall sides shift w,
     diceSides diceType = Some sides ->
     exists report r,
       diceCmd diceType shift w = (Printed (OutDice report), set_rand w r)) /\
  (forall shift w,
     diceSides diceType = None ->
     diceCmd diceType shift w = (Fatal invalidDiceType, w)) /\
  (forall sides,
     (exists accepted, diceSides accepted = Some sides) <->
     In sides [4; 5; 6; 8; 10; 12; 20; 100]).
Proof.
  split; [| split; [| split]].
  - intros sides. split; [apply diceSides_in_table | apply diceSides_of_table].
  - intros sides shift w Hs.
    pose proof (diceCmd_unfold diceType sides shift w Hs) as H. simpl in H.
    eauto.
  - intros shift w Hn. unfold diceCmd. now rewrite Hn.
  - intros sides. split.
    + intros [accepted H]. apply diceSides_in_table in H.
      apply (in_map snd) in H. exact H.
    + simpl.
      intros [<- | [<- | [<- | [<- | [<- | [<- | [<- | [<- | []]]]]]]]];
        [exists "d4" | exists "d5" | exists "d6" | exists "d8" |
         exists "d10" | exists "d12" | exists "d20" | exists "d100"];
        reflexivity.
Qed.


End Dice.

(** ** The scenarios of the specification, as instances *)

Section Scenarios.
Import GoInt GoIntFacts.

(** [create v 0 100 0 1] with a generator answering v = 1, t = 1 and
    the raw roll 1: the bonus applies, the effective chance is 100 and
    the roll succeeds. *)
Lemma roll_effective_chance_witness :
  config_fits (mkConfig "v" 0 100 0 1) /\
  exists state' report r',
    rollBody (mkConfig "v" 0 100 0 1) (mkState 0 0)
             (mkSource (script [0; 0; 0]) 0 []) = (Some (state', report), r') /\
    effective_chance report = 100 /\ raw_roll report = 1 /\
    success report = true.
Proof.
  assert (Hfits : config_fits (mkConfig "v" 0 100 0 1)).
  { unfold config_fits, in_range, min_int, max_int; simpl. lia. }
  split; [exact Hfits |].
  destruct (roll_effective_chance (mkConfig "v" 0 100 0 1) (mkState 0 0)
              (mkSource (script [0; 0; 0]) 0 []) Hfits)
    as (state' & report & r' & Hrun & Heff & _ & Hraw & _ & _ & Hok & _).
  exists state', report, r'. split; [exact Hrun |].
  split; [rewrite Heff; reflexivity |].
  split; [rewrite Hraw; reflexivity |].
  apply Hok. rewrite Hraw, Heff. vm_compute. discriminate.
Defined.

Lemma variance_two_stage_draw_witness :
  config_fits (mkConfig "v" 0 100 0 1) /\
  applyVariance (mkConfig "v" 0 100 0 1) 0 (mkSource (script [0; 0; 0]) 0 []) =
  (Some 100, mkSource (script [0; 0; 0]) 2 [1; 1]).
Proof.
  assert (Hfits : config_fits (mkConfig "v" 0 100 0 1)).
  { unfold config_fits, in_range, min_int, max_int; simpl. lia. }
  split; [exact Hfits |].
  destruct (variance_two_stage_draw (mkConfig "v" 0 100 0 1) 0
              (mkSource (script [0; 0; 0]) 0 []) Hfits) as [Hpos _].
  destruct (Hpos ltac:(simpl; lia)) as (_ & _ & _ & _ & Happly & _).
  rewrite Happly. reflexivity.
Defined.

(** [create test 10 5 3 0] at the cap: with the raw roll 100 a fourth
    roll fails and leaves the pity counter at 3. *)
Lemma pity_counter_after_roll_witness :
  config_fits (mkConfig "test" 10 5 3 0) /\ state_fits (mkState 3 100) /\
  PityCounter (mkState 3 100) <= Pity (mkConfig "test" 10 5 3 0) /\
  exists state' report,
    rollBody (mkConfig "test" 10 5 3 0) (mkState 3 100)
             (mkSource (script [99]) 0 []) =
      (Some (state', report), mkSource (script [99]) 1 [100]) /\
    raw_roll report = 100 /\ effective_chance report = 25 /\
    success report = false /\ PityCounter state' = 3.
Proof.
  assert (Hfits : config_fits (mkConfig "test" 10 5 3 0)).
  { unfold config_fits, in_range, min_int, max_int; simpl. lia. }
  assert (Hst : state_fits (mkState 3 100)).
  { unfold state_fits, in_range, min_int, max_int; simpl. lia. }
  assert (Hle : PityCounter (mkState 3 100) <= Pity (mkConfig "test" 10 5 3 0)).
  { simpl. lia. }
  split; [exact Hfits |]. split; [exact Hst |]. split; [exact Hle |].
  pose proof (pity_counter_after_roll (mkConfig "test" 10 5 3 0) (mkState 3 100)
                (mkSource (script [99]) 0 []) Hfits Hst Hle) as H.
  cbv zeta in H.
  destruct H as (state' & report & Hrun & Hraw & Heff & _ & _ & Hfail & _).
  exists state', report. split; [exact Hrun |].
  split; [rewrite Hraw; reflexivity |].
  split; [rewrite Heff; reflexivity |].
  apply Hfail. vm_compute. reflexivity.
Defined.

Lemma roll_draws_have_positive_range_witness :
  created (mkConfig "v" 0 100 0 1) /\
  exists out r',
    rollBody (mkConfig "v" 0 100 0 1) (mkState 0 0)
             (mkSource (script [0; 0; 0]) 0 []) = (Some out, r') /\
    requests r' = [1; 1; 100].
Proof.
  assert (Hc : created (mkConfig "v" 0 100 0 1)).
  { unfold created, max_int; simpl. lia. }
  split; [exact Hc |].
  destruct (roll_draws_have_positive_range (mkConfig "v" 0 100 0 1)
              (mkState 0 0) (mkSource (script [0; 0; 0]) 0 []) Hc)
    as (out & r' & Hrun & Hreq & _).
  exists out, r'. split; [exact Hrun |]. rewrite Hreq. reflexivity.
Defined.

Lemma config_changed_only_by_create_or_delete_witness :
  configs (snd (exec (Create "a" "20" "0" "0" "0")
                  (run [Create "a" "10" "5" "3" "0"]
                       (fresh homeMachine (script [])))))
    !! configPath homeMachine "a" = Some (mkConfig "a" 20 0 0 0).
Proof.
  apply (proj2 (proj2 (config_changed_only_by_create_or_delete
                  (Create "a" "20" "0" "0" "0")
                  (run [Create "a" "10" "5" "3" "0"]
                       (fresh homeMachine (script []))) "a"))
           "20" "0" "0" "0" (mkConfig "a" 20 0 0 0));
    first [reflexivity | unfold checked; simpl; repeat split; reflexivity || lia].
Defined.

Lemma create_writes_zero_state_witness :
  readState "a"
    (snd (createCmd "a" "10" "5" "3" "0"
            (run [Create "a" "10" "5" "3" "0"; Roll "a"]
                 (fresh homeMachine (script [99])))))
  = Some (mkState 0 0).
Proof.
  apply (proj1 (create_writes_zero_state "a" "10" "5" "3" "0"
                  (run [Create "a" "10" "5" "3" "0"; Roll "a"]
                       (fresh homeMachine (script [99]))))
           (OutCreate (mkConfig "a" 10 5 3 0))).
  vm_compute. reflexivity.
Defined.

Lemma last_roll_is_latest_raw_roll_witness :
  readState "a" (run [Create "a" "10" "5" "3" "0"; Roll "a"]
                     (fresh homeMachine (script [99])))
  = Some (mkState 1 100) /\
  (LastRoll (mkState 1 100) = 100 /\ 1 <= 100 <= 100).
Proof.
  assert (H : readState "a"
                (run [Create "a" "10" "5" "3" "0"; Roll "a"]
                     (fresh homeMachine (script [99])))
              = Some (mkState 1 100)) by (vm_compute; reflexivity).
  split; [exact H |].
  exact (last_roll_is_latest_raw_roll homeMachine (script [99])
           [Create "a" "10" "5" "3" "0"; Roll "a"] "a" (mkState 1 100) H).
Defined.

Lemma dice_types_accepted_witness :
  diceSides "D20" = Some 20 /\
  diceCmd "d7" 0 (fresh homeMachine (script [3])) =
  (Fatal invalidDiceType, fresh homeMachine (script [3])).
Proof.
  destruct (dice_types_accepted "D20") as (Htable & _).
  destruct (dice_types_accepted "d7") as (_ & _ & Hfatal & _).
  split.
  - apply Htable. simpl. tauto.
  - apply Hfatal. reflexivity.
Defined.


(** The first scenario: three failures drive the pity counter to 1, 2,
    3 and the effective chance to 10, 15, 20, 25; a fourth failure
    leaves the counter at 3. *)
Example pity_scenario :
  let step (w : World) := exec (Roll "test") w in
  let w0 := run [Create "test" "10" "5" "3" "0"]
                (fresh homeMachine (script [99; 99; 99; 99])) in
  let w1 := snd (step w0) in
  let w2 := snd (step w1) in
  let w3 := snd (step w2) in
  let w4 := snd (step w3) in
  map (fun w => match fst (step w) with
                | Printed (OutRoll report) => effective_chance report
                | _ => -1
                end) [w0; w1; w2; w3] = [10; 15; 20; 25] /\
  map (readState "test") [w0; w1; w2; w3; w4] =
  map Some [mkState 0 0; mkState 1 100; mkState 2 100; mkState 3 100;
            mkState 3 100].
Proof. cbv zeta. split; vm_compute; reflexivity. Qed.

(** The sums are machine sums: with the largest grace the added bonus
    wraps around, and a base chance of 100 fails. *)
Example bonus_sum_wraps :
  Atoi "9223372036854775807" = Some max_int /\
  let w := run [Create "x" "100" "9223372036854775807" "1" "1"]
               (fresh homeMachine (script [0; 0; 0])) in
  fst (exec (Roll "x") w) =
  Printed (OutRoll (mkRollReport 100 0 0 (min_int + 99) 1 false)).
Proof. cbv zeta. split; vm_compute; reflexivity. Qed.

End Scenarios.

(** * Further properties of the commands *)

(** ** create *)

Section CreateCommand.
Import GoInt GoIntFacts.

(** X1. create runs to its end exactly when its four numeric arguments
    are decimal integers that fit an [int] with 0 <= chance <= 100 and
    grace, pity and variance not negative, [os.Create] opens the file of
    the name, and the name is a key that [Put] accepts.  In every other
    case it stops at a [log.Fatal] with the database as it was, and
    with the files as they were unless the arguments and the file were
    fine and only the key was refused: then the file is written. *)
Theorem create_accepts_checked_arguments (name a1 a2 a3 a4 : string)
    (w : World) :
  ((exists o, fst (createCmd name a1 a2 a3 a4 w) = Printed o) <->
   (exists config,
      Name config = name /\ checked a1 a2 a3 a4 config /\
      createOk (env w) (configPath (env w) name) = true /\
      putOk name = true)) /\
  ((forall o, fst (createCmd name a1 a2 a3 a4 w) <> Printed o) ->
   exists msg,
     fst (createCmd name a1 a2 a3 a4 w) = Fatal msg /\
     states (snd (createCmd name a1 a2 a3 a4 w)) = states w /\
     (snd (createCmd name a1 a2 a3 a4 w) = w \/
      exists config,
        Name config = name /\ checked a1 a2 a3 a4 config /\
        putOk name = false /\
        configs (snd (createCmd name a1 a2 a3 a4 w)) =
        <[configPath (env w) name := config]> (configs w))).
Proof.
  split.
  - split.
    + intros [o Ho].
      destruct (createCmd_cases name a1 a2 a3 a4 w)
        as [[msg E] | [(cf & _ & _ & _ & _ & E) |
                       (cf & Hn & Hchk & Hok & Hkey & _)]];
        try (rewrite E in Ho; discriminate).
      exists cf. auto.
    + intros (config & Hn & Hchk & Hok & Hkey).
      rewrite (createCmd_checked _ _ _ _ _ _ w Hn Hchk), Hok, Hkey. eauto.
  - intros Hno.
    destruct (createCmd_cases name a1 a2 a3 a4 w)
      as [[msg E] | [(cf & Hn & Hchk & _ & Hkey & E) |
                     (cf & _ & _ & _ & _ & E)]]; rewrite E; simpl.
    + eauto.
    + eexists. split; [reflexivity |]. split; [reflexivity |].
      right. exists cf. auto.
    + exfalso. eapply Hno. rewrite E. reflexivity.
Qed.

(** X2. The last create wins: two accepted creates of one name, one
    after the other, leave the world that the second alone leaves.  In
    particular an accepted create run twice is the same as run once. *)
Theorem create_last_wins (name a1 a2 a3 a4 b1 b2 b3 b4 : string)
    (w : World) (o1 o2 : Output) :
  fst (createCmd name a1 a2 a3 a4 w) = Printed o1 ->
  fst (createCmd name b1 b2 b3 b4 w) = Printed o2 ->
  createCmd name b1 b2 b3 b4 (snd (createCmd name a1 a2 a3 a4 w)) =
  createCmd name b1 b2 b3 b4 w.
Proof.
  intros Ha Hb.
  destruct (createCmd_cases name a1 a2 a3 a4 w)
    as [[msg E] | [(cf & _ & _ & _ & _ & E) | (cf & _ & _ & _ & _ & E)]];
    rewrite E in Ha |- *; try discriminate. simpl.
  destruct (createCmd_cases name b1 b2 b3 b4 w)
    as [[msg E'] | [(cf' & _ & _ & _ & _ & E') |
                    (cf' & Hn & Hchk & Hok & Hkey & E')]];
    rewrite E' in Hb |- *; try discriminate.
  rewrite (createCmd_checked _ _ _ _ _ _ _ Hn Hchk). simpl.
  rewrite Hok, Hkey. simpl. rewrite !insert_insert_eq. reflexivity.
Qed.

(** X3. create followed by delete of a name that had neither a file
    nor a State record gives back the stores: the files are the same
    map, every State lookup answers as before, and the generator was
    not used. *)
Theorem create_then_delete_restores (name a1 a2 a3 a4 : string)
    (w : World) (o : Output) :
  configs w !! configPath (env w) name = None ->
  readState name w = None ->
  fst (createCmd name a1 a2 a3 a4 w) = Printed o ->
  let w' := snd (deleteCmd name (snd (createCmd name a1 a2 a3 a4 w))) in
  fst (deleteCmd name (snd (createCmd name a1 a2 a3 a4 w))) =
    Printed (OutDelete name) /\
  configs w' = configs w /\
  (forall other, readState other w' = readState other w) /\
  rand w' = rand w.
Proof.
  intros Hc Hs Ho.
  destruct (createCmd_cases name a1 a2 a3 a4 w)
    as [[msg E] | [(cf & _ & _ & _ & _ & E) | (cf & _ & _ & _ & _ & E)]];
    rewrite E in Ho |- *; try discriminate. simpl.
  unfold deleteCmd; simpl. rewrite lookup_insert_eq. simpl.
  split; [reflexivity |]. split; [now apply delete_insert_id |].
  split; [| reflexivity].
  intros other. unfold readState in *; simpl.
  rewrite delete_insert_eq.
  destruct (states w) as [b |].
  - now rewrite delete_id.
  - rewrite lookup_delete. destruct (decide (name = other)); [reflexivity |].
    apply lookup_empty.
Qed.

End CreateCommand.

(** ** delete *)

Section DeleteCommand.
Import GoInt GoIntFacts.

(** X4. delete of a name whose path holds no file stops at the error
    of [os.Remove] and changes nothing, a State record of that name
    included.  delete of a name whose path holds a file removes that
    file and the State record under the name as given; it keeps the
    file at every other path, the State record under every other key
    and the generator, and leaves a world in which roll and show of the
    name stop at an error. *)
Theorem delete_removes_file_and_state (name : string) (w : World) :
  (configs w !! configPath (env w) name = None ->
   exists msg, deleteCmd name w = (Fatal msg, w)) /\
  (is_Some (configs w !! configPath (env w) name) ->
   let w' := snd (deleteCmd name w) in
   fst (deleteCmd name w) = Printed (OutDelete name) /\
   configs w' !! configPath (env w) name = None /\
   readState name w' = None /\
   (forall path : Path, path <> configPath (env w) name ->
      configs w' !! path = configs w !! path) /\
   (forall other, other <> name ->
      readState other w' = readState other w) /\
   rand w' = rand w /\
   (exists msg, rollCmd name w' = (Fatal msg, w')) /\
   (exists msg, showCmd name w' = (Fatal msg, w'))).
Proof.
  split.
  - intros Hn. unfold deleteCmd. rewrite Hn. eauto.
  - intros [config Hc]. unfold deleteCmd. rewrite Hc. simpl.
    split; [reflexivity |]. split; [apply lookup_delete_eq |].
    split.
    { unfold readState; simpl. destruct (states w); [| reflexivity].
      apply lookup_delete_eq. }
    split.
    { intros path Hne. now apply lookup_delete_ne. }
    split.
    { intros other Hne. unfold readState; simpl.
      destruct (states w); [| reflexivity]. now apply lookup_delete_ne. }
    split; [reflexivity |].
    split; [unfold rollCmd | unfold showCmd]; unfold loadConfig; simpl;
      rewrite lookup_delete_eq; eauto.
Qed.

End DeleteCommand.

(** ** roll *)

Section RollCommand.
Import GoInt GoIntFacts.

(** X5. roll of a name whose file is missing or does not decode, or
    that has no State record under the name as given, stops at a
    [log.Fatal] with the stores and the generator untouched: nothing is
    drawn.  When the record read from the file is a Go value, roll runs
    to its end exactly when [loadConfig] reads the file and the State
    record is there. *)
Theorem roll_needs_file_and_state (name : string) (w : World) :
  (forall config, loadConfig name w = Some config -> config_fits config) ->
  ((exists report w', rollCmd name w = (Printed (OutRoll report), w')) <->
   is_Some (loadConfig name w) /\ is_Some (readState name w)) /\
  (loadConfig name w = None \/ readState name w = None ->
   exists msg, rollCmd name w = (Fatal msg, w)).
Proof.
  intros Hfits. split; [split |].
  - intros (report & w' & H).
    destruct (rollCmd_cases name w)
      as [[msg E] | [[r E] |
          (cf & b & st & st' & rep & r & Ec & Eb & Est & _ & _)]];
      try (rewrite E in H; discriminate).
    unfold readState. rewrite Ec, Eb, Est. eauto.
  - intros [[config Ec] [state Es]]. unfold rollCmd.
    unfold readState in Es. rewrite Ec.
    destruct (states w) as [b |]; [| discriminate]. rewrite Es.
    destruct (rollBody_returns config state (rand w) (Hfits _ Ec))
      as (state' & report & ->). eauto.
  - unfold rollCmd, readState.
    destruct (loadConfig name w); [| eauto].
    intros [? | Hs]; [discriminate |].
    destruct (states w) as [b |]; [| eauto]. rewrite Hs. eauto.
Qed.

(** X6. roll touches one record only: every file and the State record
    of every other name stay as they are, whatever the exit.  A roll
    that ran to its end has stored the raw roll it printed as last_roll
    and printed the counter that was stored before; the counter it
    stores is 0 after SUCCESS and otherwise the old one, plus one if
    that was below pity. *)
Theorem roll_updates_one_state (name : string) (w : World) :
  configs (snd (rollCmd name w)) = configs w /\
  (forall other, other <> name ->
     readState other (snd (rollCmd name w)) = readState other w) /\
  (forall report, fst (rollCmd name w) = Printed (OutRoll report) ->
     exists config old new,
       loadConfig name w = Some config /\
       readState name w = Some old /\
       readState name (snd (rollCmd name w)) = Some new /\
       pity_shown report = PityCounter old /\
       LastRoll new = raw_roll report /\
       PityCounter new =
         (if success report then 0
          else if PityCounter old <? Pity config
               then add (PityCounter old) 1 else PityCounter old)).
Proof.
  destruct (rollCmd_cases name w)
    as [[msg E] | [[r E] |
        (cf & b & st & st' & rep & r & Ec & Eb & Est & Er & E)]];
    rewrite E; simpl.
  - repeat split; try reflexivity. discriminate.
  - repeat split; try reflexivity. discriminate.
  - split; [reflexivity |]. split.
    + intros other Hne. rewrite readState_insert.
      rewrite decide_False by congruence. unfold readState. now rewrite Eb.
    + intros report [= <-].
      destruct (rollBody_inversion _ _ _ _ _ _ Er) as (_ & Hp & _ & _ & Hl & Hn).
      exists cf, st, st'. rewrite readState_insert, decide_True by reflexivity.
      unfold readState. rewrite Eb. auto 10.
Qed.

End RollCommand.

(** ** show and list *)

Section Reading.
Import GoInt GoIntFacts.


(** X8. list never fails and changes nothing.  It prints an entry
    exactly for the files that the directory listing names and that
    [loadConfig] reads under that name: the entry carries the listed
    name, the record read, and the pity counter stored under the listed
    name, or 0 when the database has no State record for it.  A file
    outside the directory or without the extension, and a file that
    does not decode, has no entry. *)
Theorem list_prints_listed_files (w : World) :
  exists entries,
    listCmd w = (Printed (OutList entries), w) /\
    (forall name config pity,
       In (name, config, pity) entries <->
       (exists (path : Path) written,
          configs w !! path = Some written /\
          listedName (env w) path = Some name) /\
       loadConfig name w = Some config /\
       pity = listed_pity name w).
Proof.
  eexists. split; [reflexivity |].
  intros name config pity.
  rewrite <- list_elem_of_In, list_elem_of_omap. split.
  - intros ([path written] & Hin & Hentry).
    apply elem_of_map_to_list in Hin. simpl in Hentry.
    destruct (listedName (env w) path) as [n |] eqn:El; [| discriminate].
    destruct (loadConfig n w) as [cf |] eqn:Ec; [| discriminate].
    injection Hentry as <- <- <-.
    split; [eauto |]. split; [exact Ec |].
    unfold listed_pity, readState. destruct (states w) as [b |]; reflexivity.
  - intros ((path & written & Hf & El) & Ec & ->).
    exists (path, written). split; [now apply elem_of_map_to_list |].
    simpl. rewrite El, Ec.
    unfold listed_pity, readState. destruct (states w) as [b |]; reflexivity.
Qed.

(** X9. A session of list, show and dice commands alone, however long
    and whatever its arguments and exits, leaves every file and the
    whole database as they were. *)
Theorem reading_session_keeps_stores (cs : list Command) (w : World) :
  forallb read_only cs = true ->
  configs (run cs w) = configs w /\ states (run cs w) = states w.
Proof.
  revert w. induction cs as [| c cs IH]; intros w Hro; simpl;
    [split; reflexivity |].
  simpl in Hro. apply andb_true_iff in Hro as [Hc Hcs].
  destruct (IH (snd (exec c w)) Hcs) as [-> ->].
  destruct c as [n a1 a2 a3 a4 | n | | n | n | dt sh]; try discriminate Hc;
    simpl.
  - apply listCmd_stores.
  - apply showCmd_stores.
  - apply diceCmd_stores.
Qed.

End Reading.

(** ** Sessions from a fresh installation *)

Section Reachable.
Import GoInt GoIntFacts.

Lemma name_paired_step name c w :
  stores_ok w ->
  putOk name = true ->
  (forall n, file_written_by c = Some n ->
     configPath (env w) n = configPath (env w) name -> n = name) ->
  name_paired name w -> name_paired name (snd (exec c w)).
Proof.
  intros [Hcreated _] Hkey Hsole [Hpair Hbound].
  destruct c as [n a1 a2 a3 a4 | n | | n | n | dt sh]; simpl.
  - destruct (createCmd_cases n a1 a2 a3 a4 w)
      as [[msg ->] | [(cf & Hn & Hchk & _ & Hbad & ->) |
                      (cf & Hn & Hchk & _ & _ & ->)]]; simpl;
      [split; assumption | |].
    + assert (Hpath : configPath (env w) n <> configPath (env w) name).
      { intros E. rewrite (Hsole n eq_refl E) in Hbad. congruence. }
      split; simpl.
      * rewrite lookup_insert_ne by exact Hpath. exact Hpair.
      * intros config. rewrite lookup_insert_ne by exact Hpath. apply Hbound.
    + destruct (decide (n = name)) as [-> | Hne].
      * split; simpl.
        -- rewrite lookup_insert_eq, readState_insert, decide_True by reflexivity.
           split; eauto.
        -- intros config. rewrite lookup_insert_eq. intros [= <-].
           split; [exact Hn |]. exists (mkState 0 0).
           rewrite readState_insert, decide_True by reflexivity.
           split; [reflexivity |]. simpl.
           destruct Hchk as (_ & _ & _ & _ & _ & _ & Hp & _). lia.
      * assert (Hpath : configPath (env w) n <> configPath (env w) name).
        { intros E. apply Hne. exact (Hsole n eq_refl E). }
        split; simpl.
        -- rewrite lookup_insert_ne by exact Hpath.
           rewrite readState_insert, decide_False by exact Hne.
           rewrite readState_or_empty. exact Hpair.
        -- intros config. rewrite lookup_insert_ne by exact Hpath.
           rewrite readState_insert, decide_False by exact Hne.
           rewrite readState_or_empty. apply Hbound.
  - destruct (rollCmd_cases n w)
      as [[msg ->] | [[r ->] |
          (cf & b & st & st' & rep & r & Ec & Eb & Est & Er & ->)]]; simpl;
      [split; assumption | split; assumption |].
    destruct (decide (n = name)) as [-> | Hne].
    + apply loadConfig_file in Ec as [Ec _].
      destruct (Hbound cf Ec) as (Hname & old & Hold & Hpc).
      assert (old = st) as ->.
      { unfold readState in Hold. rewrite Eb in Hold. congruence. }
      split; simpl.
      * rewrite Ec, readState_insert, decide_True by reflexivity.
        split; eauto.
      * intros config. rewrite Ec. intros [= <-]. split; [exact Hname |].
        exists st'. rewrite readState_insert, decide_True by reflexivity.
        split; [reflexivity |].
        eapply rollBody_pity_bounds; eauto.
    + split; simpl.
      * rewrite readState_insert, decide_False by exact Hne.
        unfold readState in Hpair. now rewrite Eb in Hpair.
      * intros config. rewrite readState_insert, decide_False by exact Hne.
        intros Hf. specialize (Hbound config Hf).
        unfold readState in Hbound. now rewrite Eb in Hbound.
  - split; assumption.
  - rewrite showCmd_world. split; assumption.
  - destruct (deleteCmd_cases n w) as [-> | ->]; simpl; [split; assumption |].
    destruct (decide (n = name)) as [-> | Hne].
    + split; simpl.
      * rewrite lookup_delete_eq. unfold readState; simpl.
        destruct (states w); [rewrite lookup_delete_eq |];
          split; intros [? ?]; discriminate.
      * intros config. rewrite lookup_delete_eq. discriminate.
    + assert (Hpath : configPath (env w) n <> configPath (env w) name).
      { intros E. apply Hne. exact (Hsole n eq_refl E). }
      assert (Hread : readState name
                (mkWorld (env w) (delete (configPath (env w) n) (configs w))
                   (match states w with
                    | Some b => Some (delete n b)
                    | None => None
                    end) (rand w)) = readState name w).
      { unfold readState; simpl. destruct (states w); [| reflexivity].
        now apply lookup_delete_ne. }
      split; simpl.
      * rewrite lookup_delete_ne by exact Hpath. rewrite Hread. exact Hpair.
      * intros config. rewrite lookup_delete_ne by exact Hpath.
        rewrite Hread. apply Hbound.
  - destruct (diceCmd_stores dt sh w) as [E1 E2].
    pose proof (exec_env (Dice dt sh) w) as Ee. simpl in Ee.
    unfold name_paired, readState in *. rewrite Ee, E1, E2.
    split; assumption.
Qed.

Lemma name_paired_run name cs : forall w,
  stores_ok w ->
  putOk name = true ->
  sole_spelling (env w) name cs ->
  name_paired name w -> name_paired name (run cs w).
Proof.
  induction cs as [| c cs IH]; intros w Hok Hkey Hsole Hp; simpl;
    [exact Hp |].
  inversion Hsole as [| ? ? Hc Hcs]; subst.
  apply IH.
  - now apply stores_ok_step.
  - exact Hkey.
  - now rewrite exec_env.
  - now apply name_paired_step.
Qed.

Lemma fresh_name_paired machine e name : name_paired name (fresh machine e).
Proof.
  split; simpl.
  - unfold readState; simpl. rewrite lookup_empty.
    split; intros [? ?]; discriminate.
  - intros config. rewrite lookup_empty. discriminate.
Qed.

(** X10. In every world that a session reaches from a fresh
    installation, whatever the commands, their arguments and the
    generator, every file holds values that pass the checks of create
    and every State record has a pity counter that is not negative and
    0 <= last_roll <= 100.  For a name that [Put] accepts as a key and
    whose file no create or delete of the session reaches under another
    spelling, the name has a file exactly when it has a State record,
    and the pity of the file bounds the stored counter. *)
Theorem reachable_stores_paired_and_bounded (machine : Env) (e : nat -> Z)
    (cs : list Command) (name : string) :
  let w := run cs (fresh machine e) in
  (forall (path : Path) config,
     configs w !! path = Some config -> created config) /\
  (forall key state,
     readState key w = Some state ->
     0 <= PityCounter state <= max_int /\ 0 <= LastRoll state <= 100) /\
  (putOk name = true -> sole_spelling machine name cs ->
   (is_Some (configs w !! configPath machine name) <->
    is_Some (readState name w)) /\
   (forall config,
      configs w !! configPath machine name = Some config ->
      Name config = name /\
      exists state,
        readState name w = Some state /\
        0 <= PityCounter state <= Pity config)).
Proof.
  intros w. destruct (reachable_stores_ok machine e cs) as [Hc Hs].
  fold w in Hc, Hs. split; [exact Hc |]. split; [exact Hs |].
  intros Hkey Hsole.
  pose proof (name_paired_run name cs (fresh machine e)
                (reachable_stores_ok machine e []) Hkey Hsole
                (fresh_name_paired machine e name)) as Hp.
  fold w in Hp. unfold name_paired in Hp.
  assert (Henv : env w = machine) by (unfold w; now rewrite run_env).
  rewrite Henv in Hp. exact Hp.
Qed.

(** X11. In every world that a session reaches from a fresh
    installation, for a name that [Put] accepts as a key, whose records
    decode again and whose file no create or delete of the session
    reaches under another spelling: roll and show of the name run to
    their end exactly when the name has a file, that is, was created
    and not deleted since.  No such roll panics or misses its State
    record. *)
Theorem reachable_roll_and_show_succeed (machine : Env) (e : nat -> Z)
    (cs : list Command) (name : string) :
  putOk name = true ->
  sole_spelling machine name cs ->
  (forall config, Name config = name -> tomlDecodes machine config = true) ->
  let w := run cs (fresh machine e) in
  (is_Some (configs w !! configPath machine name) <->
   exists report w', rollCmd name w = (Printed (OutRoll report), w')) /\
  (is_Some (configs w !! configPath machine name) <->
   exists report, showCmd name w = (Printed (OutShow report), w)).
Proof.
  intros Hkey Hsole Hdec w.
  destruct (reachable_stores_ok machine e cs) as [Hc _]. fold w in Hc.
  pose proof (name_paired_run name cs (fresh machine e)
                (reachable_stores_ok machine e []) Hkey Hsole
                (fresh_name_paired machine e name)) as Hp.
  fold w in Hp. unfold name_paired in Hp.
  assert (Henv : env w = machine) by (unfold w; now rewrite run_env).
  rewrite Henv in Hp. destruct Hp as [Hpair Hbound].
  assert (Hload : forall config,
            configs w !! configPath machine name = Some config ->
            loadConfig name w = Some config).
  { intros config Ef. apply loadConfig_of_file; rewrite Henv; [exact Ef |].
    apply Hdec. now destruct (Hbound config Ef). }
  assert (Hfile : forall config,
            loadConfig name w = Some config ->
            is_Some (configs w !! configPath machine name)).
  { intros config El. apply loadConfig_file in El as [El _].
    rewrite Henv in El. eauto. }
  split; split.
  - intros [config Ef]. destruct (proj1 Hpair (ex_intro _ config Ef)) as [st Es].
    unfold rollCmd. rewrite (Hload _ Ef). unfold readState in Es.
    destruct (states w) as [b |]; [| discriminate]. rewrite Es.
    destruct (rollBody_returns config st (rand w)
                (created_fits _ (Hc _ _ Ef))) as (st' & rep & ->). eauto.
  - intros (report & w' & H). unfold rollCmd in H.
    destruct (loadConfig name w) eqn:El; [eauto | discriminate].
  - intros [config Ef]. destruct (proj1 Hpair (ex_intro _ config Ef)) as [st Es].
    unfold showCmd. rewrite (Hload _ Ef). unfold readState in Es.
    destruct (states w) as [b |]; [| discriminate]. rewrite Es. eauto.
  - intros (report & H). unfold showCmd in H.
    destruct (loadConfig name w) eqn:El; [eauto | discriminate].
Qed.

End Reachable.

(** ** The odds of the decision engine *)

Section Odds.
Import GoInt GoIntFacts.

(** X12. Enough pity makes the next roll certain: on a checked
    configuration, once chance + pity_counter * grace has reached 100
    (and the sums fit an [int]) the roll prints the effective chance
    100, succeeds whatever the generator answers, and stores the pity
    counter 0. *)
Theorem enough_pity_guarantees_success (config : Config) (state : State)
    (r : RandomSource) :
  created config ->
  0 <= PityCounter state ->
  Chance config + (PityCounter state + 1) * Grace config <= max_int ->
  100 <= Chance config + PityCounter state * Grace config ->
  exists state' report r',
    rollBody config state r = (Some (state', report), r') /\
    effective_chance report = 100 /\
    success report = true /\
    PityCounter state' = 0.
Proof.
  intros (Hc & Hg & _ & Hv) Hpc Hfit Hfull.
  pose proof (rollBody_unfold config (proj2 Hv) state r) as H. simpl in H.
  pose proof (pity_sum_exact (Chance config) (Grace config) (PityCounter state)
                (bonus_triggers config r) (proj1 Hc) (proj1 Hg) Hpc Hfit) as Hsum.
  simpl in Hsum. rewrite Hsum in H.
  pose proof (word_mod_range r (if 0 <? Variance config then 2%nat else 0%nat)
                100 ltac:(lia)) as Hr.
  fold (roll_word config r) in Hr.
  assert (Hmin : Z.min 100 (Chance config + PityCounter state * Grace config +
                            (if bonus_triggers config r then Grace config else 0))
                 = 100).
  { destruct (bonus_triggers config r); lia. }
  rewrite Hmin in H.
  assert (Hle : (roll_word config r mod 100 + 1 <=? 100) = true)
    by (apply Z.leb_le; lia).
  rewrite Hle in H. eexists _, _, _. split; [exact H |]. simpl. auto.
Qed.

(** X13. A configuration with chance 0 and grace 0 never succeeds:
    whatever the stored pity counter, the variance and the generator,
    the roll prints the effective chance 0 and FAILED. *)
Theorem zero_chance_zero_grace_never_succeeds (config : Config)
    (state : State) (r : RandomSource) :
  config_fits config ->
  Chance config = 0 -> Grace config = 0 ->
  exists state' report r',
    rollBody config state r = (Some (state', report), r') /\
    effective_chance report = 0 /\
    success report = false.
Proof.
  intros (_ & _ & _ & _ & Hv) Hc Hg.
  pose proof (rollBody_unfold config Hv state r) as H. simpl in H.
  rewrite Hc, Hg in H.
  assert (Hm : mul (PityCounter state) 0 = 0).
  { unfold mul. rewrite Z.mul_0_r. reflexivity. }
  rewrite Hm in H. change (add 0 0) with 0 in H.
  change (add 0 0) with 0 in H.
  assert (Hz : (if bonus_triggers config r then 0 else 0) = 0)
    by (destruct (bonus_triggers config r); reflexivity).
  rewrite Hz in H. change (Z.min 100 0) with 0 in H.
  pose proof (word_mod_range r (if 0 <? Variance config then 2%nat else 0%nat)
                100 ltac:(lia)) as Hr.
  fold (roll_word config r) in Hr.
  assert (Hgt : (roll_word config r mod 100 + 1 <=? 0) = false)
    by (apply Z.leb_gt; lia).
  rewrite Hgt in H. eexists _, _, _. split; [exact H |]. simpl. auto.
Qed.


(** X15. More pity never hurts, and the draws do not depend on the
    State: two rolls of one checked configuration from the same
    generator, started with pity counters pc1 <= pc2 (sums fitting an
    [int]), draw the same raw roll and leave the same generator; the
    effective chance of the second is at least that of the first, and
    it succeeds whenever the first does. *)
Theorem more_pity_never_hurts (config : Config) (state1 state2 : State)
    (r : RandomSource) :
  created config ->
  0 <= PityCounter state1 <= PityCounter state2 ->
  Chance config + (PityCounter state2 + 1) * Grace config <= max_int ->
  exists new1 report1 new2 report2 r',
    rollBody config state1 r = (Some (new1, report1), r') /\
    rollBody config state2 r = (Some (new2, report2), r') /\
    raw_roll report1 = raw_roll report2 /\
    effective_chance report1 <= effective_chance report2 /\
    (success report1 = true -> success report2 = true).
Proof.
  intros (Hc & Hg & _ & Hv) Hpc Hfit.
  pose proof (rollBody_unfold config (proj2 Hv) state1 r) as H1.
  pose proof (rollBody_unfold config (proj2 Hv) state2 r) as H2.
  simpl in H1, H2.
  assert (Hfit1 : Chance config + (PityCounter state1 + 1) * Grace config
                  <= max_int) by nia.
  rewrite (pity_sum_exact _ _ _ (bonus_triggers config r)
             (proj1 Hc) (proj1 Hg) (proj1 Hpc) Hfit1) in H1.
  assert (Hpc2 : 0 <= PityCounter state2) by lia.
  rewrite (pity_sum_exact _ _ _ (bonus_triggers config r)
             (proj1 Hc) (proj1 Hg) Hpc2 Hfit) in H2.
  eexists _, _, _, _, _. split; [exact H1 |]. split; [exact H2 |]. simpl.
  assert (Hmono : PityCounter state1 * Grace config <=
                  PityCounter state2 * Grace config) by nia.
  split; [reflexivity |]. split; [lia |].
  rewrite !Z.leb_le. lia.
Qed.

End Odds.

(** ** Rolls in a row *)

Section Streaks.
Import GoInt GoIntFacts.


(** X17. show straight after an accepted create prints the record just
    created with pity counter 0, current chance equal to the chance, and
    last roll 0, and changes nothing, provided the file that create
    wrote decodes again; when it does not, show stops at the error of
    [loadConfig]. *)
Theorem show_after_create (name a1 a2 a3 a4 : string) (w : World)
    (config : Config) :
  fst (createCmd name a1 a2 a3 a4 w) = Printed (OutCreate config) ->
  let w' := snd (createCmd name a1 a2 a3 a4 w) in
  Name config = name /\
  (tomlDecodes (env w) config = true ->
   showCmd name w' =
   (Printed (OutShow (mkShowReport config 0 (Chance config) 0)), w')) /\
  (tomlDecodes (env w) config = false ->
   showCmd name w' = (Fatal "Failed to load config:", w')).
Proof.
  intros Ho.
  destruct (createCmd_cases name a1 a2 a3 a4 w)
    as [[msg E] | [(cf & _ & _ & _ & _ & E) | (cf & Hn & Hchk & _ & _ & E)]];
    rewrite E in Ho |- *; try discriminate. simpl in Ho |- *.
  injection Ho as <-. split; [exact Hn |].
  unfold showCmd, loadConfig; simpl. rewrite !lookup_insert_eq.
  split; intros ->; [| reflexivity]. simpl.
  unfold mul. rewrite Z.mul_0_l. change (wrap 0) with 0.
  unfold add. rewrite Z.add_0_r.
  destruct Hchk as (_ & _ & _ & _ & Hc & _).
  rewrite wrap_id by (unfold in_range, min_int, max_int; lia).
  reflexivity.
Qed.

End Streaks.

(** ** Instances of the further properties *)

Section FurtherScenarios.
Import GoInt GoIntFacts.

Lemma create_last_wins_witness :
  createCmd "a" "20" "0" "0" "0"
    (snd (createCmd "a" "10" "5" "3" "0" (fresh homeMachine (script [])))) =
  createCmd "a" "20" "0" "0" "0" (fresh homeMachine (script [])).
Proof.
  apply (create_last_wins "a" "10" "5" "3" "0" "20" "0" "0" "0"
           (fresh homeMachine (script []))
           (OutCreate (mkConfig "a" 10 5 3 0))
           (OutCreate (mkConfig "a" 20 0 0 0))); vm_compute; reflexivity.
Defined.

Lemma create_then_delete_restores_witness :
  configs (snd (deleteCmd "a"
                  (snd (createCmd "a" "10" "5" "3" "0"
                          (fresh homeMachine (script []))))))
  = configs (fresh homeMachine (script [])).
Proof.
  assert (Hfile : configs (fresh homeMachine (script []))
                    !! configPath (env (fresh homeMachine (script []))) "a"
                  = None) by reflexivity.
  assert (Hstate : readState "a" (fresh homeMachine (script [])) = None)
    by reflexivity.
  assert (Hprints : fst (createCmd "a" "10" "5" "3" "0"
                           (fresh homeMachine (script [])))
                    = Printed (OutCreate (mkConfig "a" 10 5 3 0)))
    by (vm_compute; reflexivity).
  pose proof (create_then_delete_restores "a" "10" "5" "3" "0"
                (fresh homeMachine (script []))
                (OutCreate (mkConfig "a" 10 5 3 0)) Hfile Hstate Hprints) as H.
  cbv zeta in H. exact (proj1 (proj2 H)).
Defined.

Lemma roll_needs_file_and_state_witness :
  exists report w',
    rollCmd "a" (run [Create "a" "10" "5" "3" "0"]
                     (fresh homeMachine (script [99]))) =
    (Printed (OutRoll report), w').
Proof.
  assert (Hfits : forall config,
            loadConfig "a" (run [Create "a" "10" "5" "3" "0"]
                                (fresh homeMachine (script [99])))
            = Some config -> config_fits config).
  { intros config H. apply created_fits. apply loadConfig_file in H as [H _].
    exact (proj1 (reachable_stores_ok homeMachine (script [99])
                    [Create "a" "10" "5" "3" "0"]) _ config H). }
  apply (proj1 (roll_needs_file_and_state "a"
                  (run [Create "a" "10" "5" "3" "0"]
                       (fresh homeMachine (script [99])))
                  Hfits)).
  split; eexists; vm_compute; reflexivity.
Defined.


Lemma reading_session_keeps_stores_witness :
  configs (run [List; Show "a"; Dice "d6" 0; Dice "d7" 2]
               (run [Create "a" "10" "5" "3" "0"] (fresh homeMachine (script [3]))))
  = configs (run [Create "a" "10" "5" "3" "0"] (fresh homeMachine (script [3]))).
Proof.
  exact (proj1 (reading_session_keeps_stores
                  [List; Show "a"; Dice "d6" 0; Dice "d7" 2]
                  (run [Create "a" "10" "5" "3" "0"] (fresh homeMachine (script [3])))
                  eq_refl)).
Defined.

Lemma enough_pity_guarantees_success_witness :
  exists state' report r',
    rollBody (mkConfig "test" 10 30 3 0) (mkState 3 100)
             (mkSource (script [99]) 0 []) = (Some (state', report), r') /\
    success report = true.
Proof.
  assert (Hc : created (mkConfig "test" 10 30 3 0)).
  { unfold created, max_int; simpl. lia. }
  destruct (enough_pity_guarantees_success (mkConfig "test" 10 30 3 0)
              (mkState 3 100) (mkSource (script [99]) 0 []) Hc)
    as (state' & report & r' & Hrun & _ & Hok & _).
  - simpl. lia.
  - unfold max_int. simpl. lia.
  - simpl. lia.
  - exists state', report, r'. split; [exact Hrun | exact Hok].
Defined.

Lemma zero_chance_zero_grace_never_succeeds_witness :
  exists state' report r',
    rollBody (mkConfig "z" 0 0 5 3) (mkState 2 7)
             (mkSource (script [0; 0; 0]) 0 []) = (Some (state', report), r') /\
    success report = false.
Proof.
  assert (Hfits : config_fits (mkConfig "z" 0 0 5 3)).
  { unfold config_fits, in_range, min_int, max_int; simpl. lia. }
  destruct (zero_chance_zero_grace_never_succeeds (mkConfig "z" 0 0 5 3)
              (mkState 2 7) (mkSource (script [0; 0; 0]) 0 [])
              Hfits eq_refl eq_refl)
    as (state' & report & r' & Hrun & _ & Hfail).
  exists state', report, r'. split; [exact Hrun | exact Hfail].
Defined.


Lemma more_pity_never_hurts_witness :
  exists new1 report1 new2 report2 r',
    rollBody (mkConfig "test" 10 5 3 0) (mkState 1 100)
             (mkSource (script [12]) 0 []) = (Some (new1, report1), r') /\
    rollBody (mkConfig "test" 10 5 3 0) (mkState 3 100)
             (mkSource (script [12]) 0 []) = (Some (new2, report2), r') /\
    effective_chance report1 <= effective_chance report2.
Proof.
  assert (Hc : created (mkConfig "test" 10 5 3 0)).
  { unfold created, max_int; simpl. lia. }
  destruct (more_pity_never_hurts (mkConfig "test" 10 5 3 0)
              (mkState 1 100) (mkState 3 100) (mkSource (script [12]) 0 []) Hc)
    as (n1 & r1 & n2 & r2 & r' & H1 & H2 & _ & Hle & _).
  - simpl. lia.
  - unfold max_int. simpl. lia.
  - exists n1, r1, n2, r2, r'. auto.
Defined.


Lemma show_after_create_witness :
  showCmd "a" (snd (createCmd "a" "10" "5" "3" "0"
                      (fresh homeMachine (script [])))) =
  (Printed (OutShow (mkShowReport (mkConfig "a" 10 5 3 0) 0 10 0)),
   snd (createCmd "a" "10" "5" "3" "0" (fresh homeMachine (script [])))).
Proof.
  assert (Hprints : fst (createCmd "a" "10" "5" "3" "0"
                           (fresh homeMachine (script [])))
                    = Printed (OutCreate (mkConfig "a" 10 5 3 0)))
    by (vm_compute; reflexivity).
  pose proof (show_after_create "a" "10" "5" "3" "0"
                (fresh homeMachine (script []))
                (mkConfig "a" 10 5 3 0) Hprints) as H.
  cbv zeta in H. apply (proj1 (proj2 H)). vm_compute. reflexivity.
Defined.

(** A name of plain letters on the example machine: created, it rolls. *)
Lemma reachable_roll_and_show_succeed_witness :
  exists report w',
    rollCmd "a" (run [Create "a" "10" "5" "3" "0"; Roll "a"]
                     (fresh homeMachine (script [99; 99]))) =
    (Printed (OutRoll report), w').
Proof.
  assert (Hkey : putOk "a" = true) by reflexivity.
  assert (Hsole : sole_spelling homeMachine "a"
                    [Create "a" "10" "5" "3" "0"; Roll "a"]).
  { unfold sole_spelling. repeat constructor; simpl; intros n Hn _;
      [now injection Hn as <- | discriminate]. }
  assert (Hdec : forall config,
            Name config = "a" -> tomlDecodes homeMachine config = true).
  { intros config Hn. simpl. rewrite Hn. reflexivity. }
  pose proof (reachable_roll_and_show_succeed homeMachine (script [99; 99])
                [Create "a" "10" "5" "3" "0"; Roll "a"] "a"
                Hkey Hsole Hdec) as H.
  cbv zeta in H. apply (proj1 (proj1 H)).
  eexists. vm_compute. reflexivity.
Defined.

End FurtherScenarios.

(** ** Names that are not plain file names, on the example machine *)

Section OddNames.

(** The empty name: create passes its checks and writes the file
    [.toml], then stops at the error of [Put]; no State record and no
    bucket is left, and roll stops at the missing bucket. *)
Example empty_name_has_file_without_state :
  let w0 := fresh homeMachine (script []) in
  let w1 := snd (exec (Create "" "10" "5" "3" "0") w0) in
  fst (exec (Create "" "10" "5" "3" "0") w0) =
    Fatal "Failed to initialize state:" /\
  loadConfig "" w1 = Some (mkConfig "" 10 5 3 0) /\
  states w1 = None /\
  fst (exec (Roll "") w1) =
    Fatal "Failed to update state: states bucket not found".
Proof. cbv zeta. repeat split; vm_compute; reflexivity. Qed.

(** A name in a directory that does not exist: [os.Create] fails and
    nothing is written. *)
Example nested_name_is_refused :
  let w0 := fresh homeMachine (script []) in
  exec (Create "a/b" "10" "5" "3" "0") w0 =
  (Fatal "Failed to create config file:", w0).
Proof. reflexivity. Qed.

(** Another spelling of a path: [./a] is the file of [a] and another
    key of the database.  A create of [./a] replaces the file of [a]
    and keeps its State record, here with a counter above the new
    pity; a delete of [./a] removes the file of [a] and keeps its State
    record. *)
Example other_spelling_shares_the_file :
  let w1 := run [Create "a" "10" "5" "3" "0"; Roll "a";
                 Create "./a" "10" "5" "0" "0"]
                (fresh homeMachine (script [99])) in
  let w2 := snd (exec (Delete "./a") w1) in
  loadConfig "a" w1 = Some (mkConfig "./a" 10 5 0 0) /\
  readState "a" w1 = Some (mkState 1 100) /\
  fst (exec (Delete "./a") w1) = Printed (OutDelete "./a") /\
  loadConfig "a" w2 = None /\
  readState "a" w2 = Some (mkState 1 100).
Proof. cbv zeta. repeat split; vm_compute; reflexivity. Qed.

(** A name that is not UTF-8: create runs to its end, the file does not
    decode, so roll and show stop at [loadConfig] and list skips the
    file. *)
Example undecodable_name_is_created_but_not_read :
  let name := String (ascii_of_nat 255) "" in
  let w1 := run [Create name "10" "5" "3" "0"]
                (fresh homeMachine (script [])) in
  fst (exec (Create name "10" "5" "3" "0") (fresh homeMachine (script []))) =
    Printed (OutCreate (mkConfig name 10 5 3 0)) /\
  readState name w1 = Some (mkState 0 0) /\
  fst (exec (Roll name) w1) = Fatal "Failed to load config:" /\
  fst (exec (Show name) w1) = Fatal "Failed to load config:" /\
  fst (exec List w1) = Printed (OutList []).
Proof. cbv zeta. repeat split; vm_compute; reflexivity. Qed.

End OddNames.
